(** * The query front end: the submit handler and the chart-shape inference

    A shallow embedding of [src/frontend/src/App.jsx]:

    - [Controller.handleQuery], the handler behind the "run" button, as a
      program in a small state-and-exception monad whose state is the React
      state of [App] together with the trace of setter and network calls;
    - [Chart.chartStructure] and [Chart.sanitized], the two memoised
      computations of [ChartPreview].

    The host language is modelled in [JS].  Numbers are IEEE-754 binary64
    values ([spec_float]); strings are sequences of code units below 256;
    an object is the list of its own enumerable data properties in the order
    [Object.keys] reports them.  Result rows are flat: a field of a row holds
    a primitive value (the data model of the result set).  Where the code
    reads a field a row may lack, or writes a property of a fresh object,
    the members every plain object inherits from [Object.prototype] are
    modelled too: its methods, and the accessor [__proto__]. *)

From Stdlib Require Import ZArith List String Ascii Bool Lia DecimalString.
From Stdlib Require Import Floats.SpecFloat.
Import ListNotations.
Local Open Scope string_scope.
#[local] Set Warnings "-register-all".

(* ===================================================================== *)
(** ** The host language *)
(* ===================================================================== *)

Module JS.

(** *** Numbers *)

Definition number : Type := spec_float.

Definition prec : Z := 53.
Definition emax : Z := 1024.

Definition NaN : number := S754_nan.
Definition Infinity : number := S754_infinity false.

(** The number denoted by an integer literal. *)
Definition of_Z (z : Z) : number := binary_normalize prec emax z 0 false.

(** [(-1)^neg * m * 10^e], rounded to the nearest double, ties to even. *)
Definition of_decimal (neg : bool) (m : Z) (e : Z) : number :=
  match m with
  | Zpos p =>
      match e with
      | Zneg k =>
          let '(q, e', l) :=
            SFdiv_core_binary prec emax (Zpos p) 0 (Z.pow 10 (Zpos k)) 0 in
          binary_round_aux prec emax neg q e' l
      | _ =>
          match (Zpos p * Z.pow 10 e)%Z with
          | Zpos q => binary_round prec emax neg q 0
          | _ => S754_zero neg
          end
      end
  | _ => S754_zero neg
  end.

Definition is_finite (n : number) : bool :=
  match n with
  | S754_zero _ | S754_finite _ _ _ => true
  | S754_infinity _ | S754_nan => false
  end.

(** *** Strings *)

Definition code (c : ascii) : nat := nat_of_ascii c.

(** WhiteSpace and LineTerminator code units: TAB, LF, VT, FF, CR, SP, NBSP. *)
Definition is_whitespace (c : ascii) : bool :=
  let n := code c in
  ((9 <=? n) && (n <=? 13) || (n =? 32) || (n =? 160))%nat.

Fixpoint trimStart (s : string) : string :=
  match s with
  | String c r => if is_whitespace c then trimStart r else s
  | EmptyString => EmptyString
  end.

Fixpoint trimEnd (s : string) : string :=
  match s with
  | String c r =>
      let r' := trimEnd r in
      if is_whitespace c && (r' =? "") then "" else String c r'
  | EmptyString => EmptyString
  end.

(** [String.prototype.trim]. *)
Definition trim (s : string) : string := trimEnd (trimStart s).

(** *** Numeric literals in strings (StringToNumber) *)

Definition digit_of (base : nat) (c : ascii) : option Z :=
  let n := code c in
  let d :=
    if ((48 <=? n) && (n <=? 57))%nat then Some (n - 48)%nat
    else if ((97 <=? n) && (n <=? 102))%nat then Some (n - 87)%nat
    else if ((65 <=? n) && (n <=? 70))%nat then Some (n - 55)%nat
    else None in
  match d with
  | Some v => if (v <? base)%nat then Some (Z.of_nat v) else None
  | None => None
  end.

(** The longest prefix of digits in [base]: its digits and the rest. *)
Fixpoint span_digits (base : nat) (s : string) : list Z * string :=
  match s with
  | String c r =>
      match digit_of base c with
      | Some d => let '(ds, rest) := span_digits base r in (d :: ds, rest)
      | None => ([], s)
      end
  | EmptyString => ([], EmptyString)
  end.

Definition digits_value (base : Z) (ds : list Z) : Z :=
  fold_left (fun acc d => (acc * base + d)%Z) ds 0%Z.

(** ExponentPart, optional: the exponent when what is left of the literal
    is empty or a well-formed exponent part. *)
Definition exponent_part (s : string) : option Z :=
  match s with
  | EmptyString => Some 0%Z
  | String c r =>
      if (c =? "e")%char || (c =? "E")%char then
        let '(neg, r') :=
          match r with
          | String "+" t => (false, t)
          | String "-" t => (true, t)
          | _ => (false, r)
          end in
        match span_digits 10 r' with
        | ((_ :: _) as ds, EmptyString) =>
            let v := digits_value 10 ds in Some (if neg then (- v)%Z else v)
        | _ => None
        end
      else None
  end.

(** StrUnsignedDecimalLiteral. *)
Definition unsigned_decimal (neg : bool) (s : string) : number :=
  if s =? "Infinity" then S754_infinity neg
  else
    let '(ip, r1) := span_digits 10 s in
    let '(fp, r2) :=
      match r1 with
      | String "." t => span_digits 10 t
      | _ => ([], r1)
      end in
    match (ip ++ fp)%list with
    | [] => NaN
    | ds =>
        match exponent_part r2 with
        | Some e =>
            of_decimal neg (digits_value 10 ds) (e - Z.of_nat (List.length fp))
        | None => NaN
        end
    end.

(** NonDecimalIntegerLiteral: the digits after [0x], [0o] or [0b]. *)
Definition non_decimal (base : nat) (s : string) : number :=
  match span_digits base s with
  | ((_ :: _) as ds, EmptyString) =>
      of_decimal false (digits_value (Z.of_nat base) ds) 0
  | _ => NaN
  end.

Definition StringToNumber (s : string) : number :=
  match trim s with
  | EmptyString => S754_zero false
  | String "+" r => unsigned_decimal false r
  | String "-" r => unsigned_decimal true r
  | String "0" (String c r) as t =>
      if (c =? "x")%char || (c =? "X")%char then non_decimal 16 r
      else if (c =? "o")%char || (c =? "O")%char then non_decimal 8 r
      else if (c =? "b")%char || (c =? "B")%char then non_decimal 2 r
      else unsigned_decimal false t
  | t => unsigned_decimal false t
  end.

(** *** Values *)

(** Primitive values. *)
Inductive prim : Type :=
  | Undefined
  | Null
  | Boolean (b : bool)
  | Num (n : number)
  | Str (s : string).

(** Values as a JSON body and the React state hold them. *)
Inductive value : Type :=
  | Prim (p : prim)
  | Arr (items : list value)
  | Obj (props : list (string * value)).

Definition typeof (p : prim) : string :=
  match p with
  | Undefined => "undefined"
  | Null => "object"
  | Boolean _ => "boolean"
  | Num _ => "number"
  | Str _ => "string"
  end.

(** ToBoolean. *)
Definition truthy_prim (p : prim) : bool :=
  match p with
  | Undefined | Null => false
  | Boolean b => b
  | Num (S754_zero _) | Num S754_nan => false
  | Num _ => true
  | Str s => negb (s =? "")
  end.

Definition truthy (v : value) : bool :=
  match v with
  | Prim p => truthy_prim p
  | Arr _ | Obj _ => true
  end.

(** [a || b] *)
Definition or_else (a b : value) : value := if truthy a then a else b.

(** [a ?? b] *)
Definition coalesce (a b : value) : value :=
  match a with
  | Prim Undefined | Prim Null => b
  | _ => a
  end.

(** [Number(p)] *)
Definition Number (p : prim) : number :=
  match p with
  | Undefined => NaN
  | Null => S754_zero false
  | Boolean true => of_Z 1
  | Boolean false => S754_zero false
  | Num n => n
  | Str s => StringToNumber s
  end.

(** [Number.isFinite(p)] *)
Definition Number_isFinite (p : prim) : bool :=
  match p with
  | Num n => is_finite n
  | _ => false
  end.

(** [list.includes(s)] on a list of strings. *)
Definition includes (l : list string) (s : string) : bool :=
  existsb (String.eqb s) l.

(** *** Own properties *)

Section Properties.
Context {A : Type}.

Definition keys (o : list (string * A)) : list string := map fst o.

Fixpoint lookup (o : list (string * A)) (k : string) : option A :=
  match o with
  | [] => None
  | (k', v) :: o' => if k' =? k then Some v else lookup o' k
  end.

(** An array index: the canonical decimal form of an integer below
    [2^32 - 1].  Such keys come first in the key order, ascending. *)
Definition array_index (k : string) : option Z :=
  match span_digits 10 k with
  | ((d :: ds') as ds, EmptyString) =>
      let i := digits_value 10 ds in
      if ((d =? 0)%Z && negb (List.length ds' =? 0)%nat) then None
      else if (i <? 4294967295)%Z then Some i else None
  | _ => None
  end.

(** Where a new array-index property goes: before the first key that is
    not a smaller array index. *)
Fixpoint insert_index (i : Z) (k : string) (v : A) (o : list (string * A))
  : list (string * A) :=
  match o with
  | [] => [(k, v)]
  | (k', v') :: o' =>
      match array_index k' with
      | Some j =>
          if (j <? i)%Z then (k', v') :: insert_index i k v o'
          else (k, v) :: o
      | None => (k, v) :: o
      end
  end.

Fixpoint update (o : list (string * A)) (k : string) (v : A)
  : list (string * A) :=
  match o with
  | [] => []
  | (k', v') :: o' =>
      if k' =? k then (k', v) :: o' else (k', v') :: update o' k v
  end.

(** Defining the own property [k] of [o] with value [v]: an existing
    property keeps its place; a new one is added in key order (array indices
    ascending, then strings as created).  The assignment [o[k] = v] does
    this unless the key is inherited as an accessor: see [assign]. *)
Definition set (o : list (string * A)) (k : string) (v : A)
  : list (string * A) :=
  match lookup o k with
  | Some _ => update o k v
  | None =>
      match array_index k with
      | Some i => insert_index i k v o
      | None => o ++ [(k, v)]
      end
  end.
End Properties.

(** [o[k]] on a flat record, for a key that is its own or that no object
    inherits. *)
Definition get (o : list (string * prim)) (k : string) : prim :=
  match lookup o k with
  | Some v => v
  | None => Undefined
  end.

(** *** Plain objects and [Object.prototype] *)

(** The methods every plain object inherits. *)
Definition prototype_methods : list string :=
  ["constructor"; "hasOwnProperty"; "isPrototypeOf"; "propertyIsEnumerable";
   "toLocaleString"; "toString"; "valueOf";
   "__defineGetter__"; "__defineSetter__";
   "__lookupGetter__"; "__lookupSetter__"].

(** Whether [k] names a member of [Object.prototype]: a method, or the
    accessor [__proto__]. *)
Definition inherits (k : string) : bool :=
  (k =? "__proto__") || includes prototype_methods k.

(** What a property holds, or a read yields: a primitive value, or the
    member of [Object.prototype] that the key names (a function; for
    [__proto__], [Object.prototype] itself). *)
Inductive cell : Type :=
  | Value (p : prim)
  | Inherited.

(** Where the prototype chain of an object starts: at [Object.prototype],
    or nowhere. *)
Inductive chain : Type :=
  | Ordinary
  | Detached.

(** An object under construction: its own properties and its chain. *)
Record object : Type := { own : list (string * cell); proto : chain }.

(** [{}] *)
Definition fresh : object := {| own := []; proto := Ordinary |}.

(** [o[k]] on a parsed object: the own property, else the inherited
    member, else [undefined]. *)
Definition read (o : list (string * prim)) (k : string) : cell :=
  match lookup o k with
  | Some v => Value v
  | None => if inherits k then Inherited else Value Undefined
  end.

(** [Number(c)]: a function, and [Object.prototype], convert to NaN. *)
Definition Number_of (c : cell) : number :=
  match c with
  | Value p => Number p
  | Inherited => NaN
  end.

(** [o[k] = v].  An inherited method is a writable data property, so the
    assignment defines an own property.  [__proto__] is an accessor: unless
    [o] has an own property of that name, or no chain to find the accessor
    on, the assignment runs its setter, which defines nothing and changes
    the chain when [v] is [null] or an object. *)
Definition assign (o : object) (k : string) (v : cell) : object :=
  if k =? "__proto__" then
    match lookup (own o) k, proto o with
    | Some _, _ | None, Detached =>
        {| own := set (own o) k v; proto := proto o |}
    | None, Ordinary =>
        match v with
        | Value Null => {| own := own o; proto := Detached |}
        | Inherited => {| own := own o; proto := Ordinary |}
        | Value _ => o
        end
    end
  else {| own := set (own o) k v; proto := proto o |}.

End JS.

Import JS.

(* ===================================================================== *)
(** ** The submit handler of [App] *)
(* ===================================================================== *)

Module Controller.

(** The six [useState] cells of [App]. *)
Record UIState : Type := {
  query : string;
  sqlOutput : value;
  latency : value;
  chartData : value;
  isLoading : bool;
  error : value
}.

(** The state of a freshly mounted [App]. *)
Definition initial : UIState := {|
  query := "";
  sqlOutput := Prim (Str "");
  latency := Prim Null;
  chartData := Prim Null;
  isLoading := false;
  error := Prim (Str "")
|}.

(** *** The network *)

Record request : Type := {
  url : string;
  method : string;
  headers : list (string * string);
  body : value          (* the value handed to [JSON.stringify] *)
}.

(** A response, as far as the handler reads it: what [response.json()]
    settles to, [None] when the body is not JSON. *)
Record response : Type := { json : option value }.

(** What [fetch] settles to for a request, [None] when it rejects. *)
Definition network : Type := request -> option response.

(** *** Effects *)

Inductive call : Type :=
  | SetSqlOutput (v : value)
  | SetLatency (v : value)
  | SetChartData (v : value)
  | SetIsLoading (b : bool)
  | SetError (v : value)
  | Fetch (r : request).

(** The React state and the calls made so far, oldest first. *)
Record world : Type := { ui : UIState; trace : list call }.

Inductive exn : Type := TypeError | FetchRejected | JsonRejected.

(** A computation changes the world and returns or throws; what it did
    before throwing stays done. *)
Definition M (A : Type) : Type := world -> (exn + A) * world.

Definition ret {A} (a : A) : M A := fun w => (inr a, w).

Definition bind {A B} (m : M A) (k : A -> M B) : M B :=
  fun w =>
    match m w with
    | (inr a, w') => k a w'
    | (inl e, w') => (inl e, w')
    end.

Definition throw {A} (e : exn) : M A := fun w => (inl e, w).

Definition try_catch {A} (m : M A) (handler : exn -> M A) : M A :=
  fun w =>
    match m w with
    | (inl e, w') => handler e w'
    | r => r
    end.

Declare Scope js_scope.
Delimit Scope js_scope with js.
Notation "x <- m ;; k" := (bind m (fun x => k))
  (at level 61, m at next level, right associativity) : js_scope.
Notation "m ;; k" := (bind m (fun _ => k))
  (at level 61, right associativity) : js_scope.
Local Open Scope js_scope.

Definition record_call (c : call) (f : UIState -> UIState) : M unit :=
  fun w => (inr tt, {| ui := f (ui w); trace := trace w ++ [c] |}).

Definition setSqlOutput (v : value) : M unit :=
  record_call (SetSqlOutput v) (fun s =>
    {| query := query s; sqlOutput := v; latency := latency s;
       chartData := chartData s; isLoading := isLoading s; error := error s |}).

Definition setLatency (v : value) : M unit :=
  record_call (SetLatency v) (fun s =>
    {| query := query s; sqlOutput := sqlOutput s; latency := v;
       chartData := chartData s; isLoading := isLoading s; error := error s |}).

Definition setChartData (v : value) : M unit :=
  record_call (SetChartData v) (fun s =>
    {| query := query s; sqlOutput := sqlOutput s; latency := latency s;
       chartData := v; isLoading := isLoading s; error := error s |}).

Definition setIsLoading (b : bool) : M unit :=
  record_call (SetIsLoading b) (fun s =>
    {| query := query s; sqlOutput := sqlOutput s; latency := latency s;
       chartData := chartData s; isLoading := b; error := error s |}).

Definition setError (v : value) : M unit :=
  record_call (SetError v) (fun s =>
    {| query := query s; sqlOutput := sqlOutput s; latency := latency s;
       chartData := chartData s; isLoading := isLoading s; error := v |}).

(** The [query] the handler closes over. *)
Definition read_query : M string := fun w => (inr (query (ui w)), w).

(** [await fetch(url, init)] *)
Definition fetch (net : network) (r : request) : M response :=
  fun w =>
    let w' := {| ui := ui w; trace := trace w ++ [Fetch r] |} in
    match net r with
    | Some resp => (inr resp, w')
    | None => (inl FetchRejected, w')
    end.

(** [await response.json()] *)
Definition response_json (resp : response) : M value :=
  match json resp with
  | Some data => ret data
  | None => throw JsonRejected
  end.

(** [data.name] on a value that is neither [null] nor [undefined], for the
    names the handler reads ([results], [sql_query], [latency], [detail]):
    none of them is an array index, [length] or an inherited member, so only
    an object can have one. *)
Definition property (data : value) (name : string) : value :=
  match data with
  | Obj props =>
      match lookup props name with
      | Some v => v
      | None => Prim Undefined
      end
  | Prim _ | Arr _ => Prim Undefined
  end.

(** [data.name]: reading a property of [null] or [undefined] throws. *)
Definition member (data : value) (name : string) : M value :=
  match data with
  | Prim Undefined | Prim Null => throw TypeError
  | _ => ret (property data name)
  end.

Definition str (s : string) : value := Prim (Str s).
Definition null : value := Prim Null.

(** The request of a question. *)
Definition process_query (question : string) : request :=
  {| url := "http://localhost:8000/process_query/";
     method := "POST";
     headers := [("Content-Type", "application/json")];
     body := Obj [("question", str question)] |}.

Definition handleQuery (net : network) : M unit :=
  query <- read_query ;;
  if trim query =? "" then ret tt
  else
    setError (str "") ;;
    setIsLoading true ;;
    try_catch
      (response <- fetch net (process_query query) ;;
       data <- response_json response ;;
       results <- member data "results" ;;
       if truthy results then
         sql_query <- member data "sql_query" ;;
         setSqlOutput sql_query ;;
         latency <- member data "latency" ;;
         setLatency (coalesce latency null) ;;
         results <- member data "results" ;;
         setChartData results
       else
         setSqlOutput (str "Error generating SQL query") ;;
         setLatency null ;;
         setChartData null ;;
         detail <- member data "detail" ;;
         setError (or_else detail (str "Unable to generate SQL query.")))
      (fun _ =>
         setSqlOutput (str "") ;;
         setLatency null ;;
         setChartData null ;;
         setError (str "There was a problem connecting to the server.")) ;;
    setIsLoading false.

(** One click on the button, from state [s]. *)
Definition submit (net : network) (s : UIState) : (exn + unit) * world :=
  handleQuery net {| ui := s; trace := [] |}.

(** How often the handler called [fetch]. *)
Definition network_calls (t : list call) : nat :=
  List.length (filter (fun c => match c with Fetch _ => true | _ => false end) t).

(** How often it called [setIsLoading(false)]. *)
Definition loading_cleared (t : list call) : nat :=
  List.length
    (filter (fun c => match c with SetIsLoading false => true | _ => false end) t).

End Controller.

(* ===================================================================== *)
(** ** [ChartPreview] *)
(* ===================================================================== *)

Module Chart.

(** A flat object: field names to primitive values. *)
Definition record : Type := list (string * prim).

(** An element of the [data] array. *)
Inductive row : Type :=
  | RPrim (p : prim)
  | RObj (o : record).

(** The [data] prop. *)
Inductive data : Type :=
  | DPrim (p : prim)
  | DObj (o : record)
  | DArr (rows : list row).

Definition truthy_row (r : row) : bool :=
  match r with
  | RPrim p => truthy_prim p
  | RObj _ => true
  end.

Definition typeof_row (r : row) : string :=
  match r with
  | RPrim p => typeof p
  | RObj _ => "object"
  end.

(** [(row) => row && typeof row === "object"] *)
Definition is_object (r : row) : bool :=
  truthy_row r && (typeof_row r =? "object").

(** [Object.keys(row)], and [row[key]] for one of those keys, on the rows
    [is_object] lets through; no primitive row reaches them. *)
Definition Object_keys (r : row) : list string :=
  match r with
  | RObj o => keys o
  | RPrim _ => []
  end.

Definition field (r : row) (key : string) : prim :=
  match r with
  | RObj o => get o key
  | RPrim _ => Undefined
  end.

Record structure : Type := { xKey : string; yKeys : list string }.

Definition chartStructure (d : data) : option structure :=
  match d with
  | DArr rows =>
      if (List.length rows =? 0)%nat then None
      else
        match find is_object rows with
        | None => None
        | Some sample =>
            let possibleKeys := Object_keys sample in
            if (List.length possibleKeys =? 0)%nat then None
            else
              match
                find (fun key =>
                        let value := field sample key in
                        includes ["string"; "number"] (typeof value))
                     possibleKeys
              with
              | None => None
              | Some xKey =>
                  if negb (truthy_prim (Str xKey)) then None
                  else
                    let yKeys :=
                      filter (fun key =>
                                if key =? xKey then false
                                else
                                  let value := field sample key in
                                  (typeof value =? "number")
                                  && Number_isFinite value)
                             possibleKeys in
                    if (List.length yKeys =? 0)%nat then None
                    else Some {| xKey := xKey; yKeys := yKeys |}
              end
        end
  | DPrim _ | DObj _ => None
  end.

(** [row[key]] on a row that may lack the field. *)
Definition read_row (r : row) (key : string) : cell :=
  match r with
  | RObj o => read o key
  | RPrim _ => Value Undefined
  end.

(** A sanitized record. *)
Definition entry : Type := object.

(** The body of the [map] callback of [sanitized]. *)
Definition entry_of (cs : structure) (r : row) : entry :=
  let entry :=
    fold_left (fun entry key =>
                 let value := Number_of (read_row r key) in
                 assign entry key
                        (Value (if Number_isFinite (Num value) then Num value
                                else Null)))
              (yKeys cs) fresh in
  assign entry (xKey cs) (read_row r (xKey cs)).

Definition sanitized (d : data) : list entry :=
  match chartStructure d with
  | None => []
  | Some cs =>
      match d with
      | DArr rows => map (entry_of cs) (filter is_object rows)
      | DPrim _ | DObj _ => []
      end
  end.

(** The sanitized rows, handed to [ChartPreview] again. *)
Definition resubmit (rs : list record) : data := DArr (map RObj rs).

End Chart.

(* ===================================================================== *)
(** ** What the specification says, in its own words *)
(* ===================================================================== *)

Module Spec.
Import Controller Chart.

(** *** The three ways a submission can end *)

Inductive path : Type :=
  | Success (data : value)
  | HandledFailure (data : value)
  | TransportException.

(** The path a submission of [question] takes on [net]. *)
Definition exit_path (net : network) (question : string) : path :=
  match net (process_query question) with
  | None => TransportException
  | Some resp =>
      match json resp with
      | None => TransportException
      | Some (Prim Undefined) | Some (Prim Null) => TransportException
      | Some data =>
          if truthy (property data "results") then Success data
          else HandledFailure data
      end
  end.

(** The state each path leaves, from state [s]. *)
Definition final_state (s : UIState) (p : path) : UIState :=
  match p with
  | Success data =>
      {| query := query s;
         sqlOutput := property data "sql_query";
         latency := coalesce (property data "latency") null;
         chartData := property data "results";
         isLoading := false;
         error := str "" |}
  | HandledFailure data =>
      {| query := query s;
         sqlOutput := str "Error generating SQL query";
         latency := null;
         chartData := null;
         isLoading := false;
         error := or_else (property data "detail")
                          (str "Unable to generate SQL query.") |}
  | TransportException =>
      {| query := query s;
         sqlOutput := str "";
         latency := null;
         chartData := null;
         isLoading := false;
         error := str "There was a problem connecting to the server." |}
  end.

(** The setter calls of each path, between the request and the final
    [setIsLoading(false)]. *)
Definition settle_calls (p : path) : list call :=
  match p with
  | Success data =>
      [SetSqlOutput (property data "sql_query");
       SetLatency (coalesce (property data "latency") null);
       SetChartData (property data "results")]
  | HandledFailure data =>
      [SetSqlOutput (str "Error generating SQL query");
       SetLatency null;
       SetChartData null;
       SetError (or_else (property data "detail")
                         (str "Unable to generate SQL query."))]
  | TransportException =>
      [SetSqlOutput (str "");
       SetLatency null;
       SetChartData null;
       SetError (str "There was a problem connecting to the server.")]
  end.

(** A transport failure: [fetch] rejects (network error, timeout), or the
    body is not JSON. *)
Definition transport_failure (net : network) (question : string) : Prop :=
  net (process_query question) = None
  \/ exists resp, net (process_query question) = Some resp /\ json resp = None.

(** A network that answers every request with the JSON body [data]. *)
Definition answering (data : value) : network :=
  fun _ => Some {| json := Some data |}.

(** *** The chart shape *)

Definition is_string_or_number (p : prim) : bool :=
  match p with
  | Num _ | Str _ => true
  | Undefined | Null | Boolean _ => false
  end.

Definition is_finite_number (p : prim) : bool :=
  match p with
  | Num n => is_finite n
  | Undefined | Null | Boolean _ | Str _ => false
  end.

(** The rows that are non-null objects, in order. *)
Fixpoint objects (rows : list row) : list record :=
  match rows with
  | [] => []
  | RObj o :: rest => o :: objects rest
  | RPrim _ :: rest => objects rest
  end.

(** The first field of the sample row whose value is a string or a number. *)
Definition category_key (sample : record) : option string :=
  find (fun key => is_string_or_number (get sample key)) (keys sample).

(** Every other field of the sample row that holds a finite number. *)
Definition value_keys (sample : record) (categoryKey : string) : list string :=
  filter (fun key =>
            negb (key =? categoryKey) && is_finite_number (get sample key))
         (keys sample).

(** Steps 1 to 4 of the inference; [None] is "no chart". *)
Definition shape (d : data) : option structure :=
  match d with
  | DArr rows =>
      match objects rows with
      | [] => None
      | sample :: _ =>
          match category_key sample with
          | None => None
          | Some categoryKey =>
              match value_keys sample categoryKey with
              | [] => None
              | valueKeys =>
                  Some {| xKey := categoryKey; yKeys := valueKeys |}
              end
          end
      end
  | DPrim _ | DObj _ => None
  end.

(** The numeric coercion of a value, [null] when it fails (NaN) or is not
    finite. *)
Definition coerced (p : prim) : prim :=
  match Number p with
  | S754_nan | S754_infinity _ => Null
  | n => Num n
  end.

(** [e] is the sanitized record of the object row [o]: it holds what the
    row yields for the category key, unchanged, the coerced value of each
    value key, and nothing else. *)
Definition sanitized_from (cs : structure) (o : record) (e : entry) : Prop :=
  lookup (own e) (xKey cs) = Some (read o (xKey cs))
  /\ (forall key, In key (yKeys cs) ->
      lookup (own e) key = Some (Value (coerced (get o key))))
  /\ (forall key, In key (keys (own e)) <-> key = xKey cs \/ In key (yKeys cs)).

(** The cells a sanitized record can hold under a value key. *)
Definition finite_or_null (c : cell) : Prop :=
  c = Value Null \/ exists n, c = Value (Num n) /\ is_finite n = true.

(** A sanitized record as a flat row again: an ordinary object whose
    properties hold primitive values. *)
Fixpoint flat_cells (cells : list (string * cell)) : option record :=
  match cells with
  | [] => Some []
  | (k, Value p) :: rest =>
      match flat_cells rest with
      | Some r => Some ((k, p) :: r)
      | None => None
      end
  | (_, Inherited) :: _ => None
  end.

Definition flat (e : entry) : option record :=
  match proto e with
  | Ordinary => flat_cells (own e)
  | Detached => None
  end.

Fixpoint flat_records (es : list entry) : option (list record) :=
  match es with
  | [] => Some []
  | e :: rest =>
      match flat e, flat_records rest with
      | Some r, Some rs => Some (r :: rs)
      | _, _ => None
      end
  end.

(** [e'] is [e] again, except that a value key whose entry was already
    [null] now holds 0. *)
Definition same_but_null (cs : structure) (e e' : record) : Prop :=
  get e' (xKey cs) = get e (xKey cs)
  /\ (forall key, In key (yKeys cs) ->
      get e' key = match get e key with
                   | Null => Num (S754_zero false)
                   | v => v
                   end)
  /\ keys e' = keys e.

(** The sanitized record of the object row [o] as a flat row, when its
    category key comes first. *)
Definition category_first (cs : structure) (o : record) : record :=
  (xKey cs, get o (xKey cs))
  :: map (fun y => (y, coerced (get o y))) (yKeys cs).

(** Whether [k1] may come before [k2] among the own keys of an object:
    array indices ascending, then the other keys, none twice. *)
Definition key_before (k1 k2 : string) : bool :=
  match array_index k1, array_index k2 with
  | Some i, Some j => (i <? j)%Z
  | Some _, None => true
  | None, Some _ => false
  | None, None => negb (k1 =? k2)
  end.

(** Whether [ks] can be the own keys of an object, as [Object.keys]
    reports them. *)
Fixpoint own_key_order (ks : list string) : bool :=
  match ks with
  | [] => true
  | k :: rest => forallb (key_before k) rest && own_key_order rest
  end.

(** *** The sample result sets *)

Definition name_value_rows : data :=
  DArr [RObj [("name", Str "A"); ("value", Num (of_Z 5))];
        RObj [("name", Str "B"); ("value", Str "oops")]].

Definition only_strings : data := DArr [RObj [("label", Str "only-strings")]].

Definition unnamed_category : data :=
  DArr [RObj [("", Str "A"); ("value", Num (of_Z 5))]].

Definition indexed_rows : data :=
  DArr [RObj [("1", Str "A"); ("2", Num (of_Z 5))];
        RObj [("1", Str "B"); ("2", Str "oops")]].

Definition proto_column : data :=
  DArr [RObj [("name", Str "A"); ("__proto__", Num (of_Z 5))]].

(** The sanitized records of [name_value_rows], as rows. *)
Definition name_value_sanitized : list record :=
  [[("value", Num (of_Z 5)); ("name", Str "A")];
   [("value", Null); ("name", Str "B")]].

(** *** The sample exchanges *)

Definition num (z : Z) : value := Prim (Num (of_Z z)).

(** A state in which a question has been typed. *)
Definition asked (question : string) : UIState :=
  {| query := question;
     sqlOutput := sqlOutput initial;
     latency := latency initial;
     chartData := chartData initial;
     isLoading := isLoading initial;
     error := error initial |}.

Definition two_rows : value :=
  Arr [Obj [("region", str "west"); ("sales", num 10)];
       Obj [("region", str "east"); ("sales", num 20)]].

Definition half_second : value :=
  Obj [("total_time", Prim (Num (StringToNumber "0.5")))].

Definition sample_response : value :=
  Obj [("results", two_rows);
       ("sql_query", str "SELECT ...");
       ("latency", half_second)].

Definition no_such_table : value := Obj [("detail", str "no such table")].

Definition zero_results : value :=
  Obj [("results", num 0); ("sql_query", str "SELECT 1")].

End Spec.

(* ===================================================================== *)
(** ** What [App] shows *)
(* ===================================================================== *)

Module Display.
Import Controller.

(** *** [Number(v)] on any JSON value *)




(** *** [Number.prototype.toFixed(2)] *)











(** *** The latency tiles *)








Definition suggestions : list string :=
  [ "Show me the top 5 products by revenue last quarter";
    "How many users signed up this month compared to last?";
    "Total orders per region for the previous year";
    "Average session duration for premium customers" ].

(** *** The panes *)

(** [error && <div>{error}</div>]: the box, or the falsy [error] itself. *)
Inductive error_pane : Type :=
  | Box (content : JS.value)
  | Bare (v : JS.value).

Definition errorBox (s : UIState) : error_pane :=
  if truthy (error s) then Box (error s) else Bare (error s).

(** *** The chart *)

Import Chart.

Definition colors : list string :=
  ["#34d399"; "#60a5fa"; "#fbbf24"; "#f472b6"; "#38bdf8"].

(** A [<Bar>]; [fill] is [None] when [colors[...]] is [undefined]. *)
Record bar : Type := { dataKey : string; fill : option string }.

(** [yKeys.map((key, index) => <Bar ... />)], from [index] on. *)
Fixpoint bars (index : nat) (yKeys : list string) : list bar :=
  match yKeys with
  | [] => []
  | key :: rest =>
      {| dataKey := key;
         fill := nth_error colors (index mod List.length colors) |}
      :: bars (S index) rest
  end.

(** What [ChartPreview] returns. *)
Inductive preview : Type :=
  | NoData
  | BarChart (rows : list entry) (xAxis : string) (series : list bar).

Definition ChartPreview (d : data) : preview :=
  match chartStructure d with
  | None => NoData
  | Some cs =>
      if (List.length (sanitized d) =? 0)%nat then NoData
      else BarChart (sanitized d) (xKey cs) (bars 0 (yKeys cs))
  end.

(** *** From the state to the [data] prop *)





End Display.

(* ===================================================================== *)
(** ** [App] between events *)
(* ===================================================================== *)

Module EventLoop.
Import Controller Display.
Local Open Scope js_scope.

(** [handleQuery] up to its first [await]: the request it has sent, if
    any. *)
Definition dispatched : M (option request) :=
  query <- read_query ;;
  if trim query =? "" then ret None
  else
    setError (str "") ;;
    setIsLoading true ;;
    ret (Some (process_query query)).

(** [await] of a promise that has settled. *)
Definition awaited (outcome : option response) : M response :=
  match outcome with
  | Some resp => ret resp
  | None => throw FetchRejected
  end.

(** [handleQuery] from the moment its request settles. *)
Definition settled (outcome : option response) : M unit :=
  try_catch
    (response <- awaited outcome ;;
     data <- response_json response ;;
     results <- member data "results" ;;
     if truthy results then
       sql_query <- member data "sql_query" ;;
       setSqlOutput sql_query ;;
       latency <- member data "latency" ;;
       setLatency (coalesce latency null) ;;
       results <- member data "results" ;;
       setChartData results
     else
       setSqlOutput (str "Error generating SQL query") ;;
       setLatency null ;;
       setChartData null ;;
       detail <- member data "detail" ;;
       setError (or_else detail (str "Unable to generate SQL query.")))
    (fun _ =>
       setSqlOutput (str "") ;;
       setLatency null ;;
       setChartData null ;;
       setError (str "There was a problem connecting to the server.")) ;;
  setIsLoading false.

(** [setQuery(text)] *)
Definition setQuery (text : string) (s : UIState) : UIState :=
  {| query := text; sqlOutput := sqlOutput s; latency := latency s;
     chartData := chartData s; isLoading := isLoading s; error := error s |}.

(** The page: its state and the requests that have not settled, oldest
    first. *)
Record page : Type := { state : UIState; pending : list request }.

Definition mounted : page := {| state := initial; pending := [] |}.

Inductive event : Type :=
  | Typed (text : string)               (* [onChange] of the input *)
  | Suggested (i : nat)                 (* a click on the [i]-th suggestion *)
  | Clicked                             (* a click on the button *)
  | Settled (outcome : option response). (* the oldest request settles *)

Definition step (p : page) (e : event) : page :=
  match e with
  | Typed text => {| state := setQuery text (state p); pending := pending p |}
  | Suggested i =>
      match nth_error suggestions i with
      | Some suggestion =>
          {| state := setQuery suggestion (state p); pending := pending p |}
      | None => p
      end
  | Clicked =>
      if isLoading (state p) then p        (* [disabled={isLoading}] *)
      else
        match dispatched {| ui := state p; trace := [] |} with
        | (inr (Some r), w) =>
            {| state := ui w; pending := pending p ++ [r] |}
        | (_, w) => {| state := ui w; pending := pending p |}
        end
  | Settled outcome =>
      match pending p with
      | [] => p
      | _ :: rest =>
          {| state := ui (snd (settled outcome {| ui := state p; trace := [] |}));
             pending := rest |}
      end
  end.

Definition run (p : page) (events : list event) : page :=
  fold_left step events p.

(** *** The two halves, summarised *)

Import Spec.

(** The path an outcome leads to. *)
Definition path_of (outcome : option response) : path :=
  match outcome with
  | None => TransportException
  | Some resp =>
      match json resp with
      | None => TransportException
      | Some (Prim Undefined) | Some (Prim Null) => TransportException
      | Some data =>
          if truthy (property data "results") then Success data
          else HandledFailure data
      end
  end.

(** The state once the request is out. *)
Definition loading_state (s : UIState) : UIState :=
  {| query := query s; sqlOutput := sqlOutput s; latency := latency s;
     chartData := chartData s; isLoading := true; error := str "" |}.

(** The state a settlement along [p] leaves, from [s]: the success branch
    does not call [setError]. *)
Definition settle_state (s : UIState) (p : path) : UIState :=
  {| query := query s;
     sqlOutput := sqlOutput (final_state s p);
     latency := latency (final_state s p);
     chartData := chartData (final_state s p);
     isLoading := false;
     error := match p with
              | Success _ => error s
              | _ => error (final_state s p)
              end |}.

(** What holds of the page between any two events. *)
Definition consistent (p : page) : Prop :=
  (isLoading (state p) = true <-> pending p <> [])
  /\ (List.length (pending p) <= 1)%nat
  /\ (isLoading (state p) = true -> error (state p) = str "")
  /\ (truthy (error (state p)) = true ->
      chartData (state p) = null /\ latency (state p) = null)
  /\ (error (state p) = str "" \/ truthy (error (state p)) = true)
  /\ latency (state p) <> Prim Undefined
  /\ (chartData (state p) = null \/ truthy (chartData (state p)) = true).

End EventLoop.

Import Controller Chart Spec.

(* ===================================================================== *)
(** ** The submit handler: proofs *)
(* ===================================================================== *)

Lemma trim_nonempty_eqb (q : string) : trim q <> "" -> (trim q =? "") = false.
Proof. intros H. apply String.eqb_neq. exact H. Qed.

(** A submission with a blank question returns at once. *)
Lemma submit_blank (net : network) (s : UIState) :
  trim (query s) = "" -> submit net s = (inr tt, {| ui := s; trace := [] |}).
Proof.
  intros H. unfold submit, handleQuery, bind, read_query. cbn.
  rewrite H. reflexivity.
Qed.

(** Any other submission runs to the end along one of the three paths. *)
Lemma submit_runs (net : network) (s : UIState) :
  trim (query s) <> "" ->
  submit net s =
    (inr tt,
     {| ui := final_state s (exit_path net (query s));
        trace :=
          [SetError (str ""); SetIsLoading true;
           Fetch (process_query (query s))]
          ++ settle_calls (exit_path net (query s))
          ++ [SetIsLoading false] |}).
Proof.
  intros H. apply trim_nonempty_eqb in H.
  unfold submit, handleQuery, exit_path, bind, read_query, try_catch, fetch.
  cbn. rewrite H. cbn.
  destruct (net (process_query (query s))) as [[[data|]]|]; cbn;
    try reflexivity.
  destruct data as [[| |b|n|t]|items|props]; try reflexivity;
    unfold member, ret; cbv beta iota;
    destruct (truthy (property _ "results")); reflexivity.
Qed.

Lemma exit_path_success net q resp data :
  net (process_query q) = Some resp ->
  json resp = Some data ->
  truthy (property data "results") = true ->
  exit_path net q = Success data.
Proof.
  intros Hnet Hjson Ht. unfold exit_path. rewrite Hnet, Hjson.
  destruct data as [[| |b|n|t]|items|props]; try discriminate Ht;
    rewrite Ht; reflexivity.
Qed.

Lemma exit_path_handled net q resp data :
  net (process_query q) = Some resp ->
  json resp = Some data ->
  data <> Prim Null ->
  data <> Prim Undefined ->
  truthy (property data "results") = false ->
  exit_path net q = HandledFailure data.
Proof.
  intros Hnet Hjson Hn Hu Ht. unfold exit_path. rewrite Hnet, Hjson.
  destruct data as [[| |b|n|t]|items|props]; try congruence;
    rewrite Ht; reflexivity.
Qed.

Lemma exit_path_transport net q :
  transport_failure net q -> exit_path net q = TransportException.
Proof.
  intros [Hnet | (resp & Hnet & Hjson)]; unfold exit_path; rewrite Hnet.
  - reflexivity.
  - rewrite Hjson. reflexivity.
Qed.

Lemma loading_cleared_settle (p : path) (pre : list call) :
  loading_cleared (pre ++ settle_calls p ++ [SetIsLoading false])
  = S (loading_cleared pre).
Proof.
  unfold loading_cleared. rewrite filter_app, length_app.
  destruct p; cbn; lia.
Qed.

Lemma last_settle (p : path) (pre : list call) (d : call) :
  last (pre ++ settle_calls p ++ [SetIsLoading false]) d = SetIsLoading false.
Proof. rewrite app_assoc. apply last_last. Qed.

Lemma isLoading_final (s : UIState) (p : path) :
  isLoading (final_state s p) = false.
Proof. destruct p; reflexivity. Qed.

(** C7. A question that is empty after trimming makes submit a no-op: the
    handler returns without calling [fetch] or any setter, so all six fields
    of the state are as before; [""] and ["   "] are such questions. *)
Theorem blank_question_is_noop (net : network) (s : UIState) :
  trim (query s) = "" ->
  submit net s = (inr tt, {| ui := s; trace := [] |})
  /\ ui (snd (submit net s)) = s
  /\ network_calls (trace (snd (submit net s))) = 0
  /\ trim "" = "" /\ trim "   " = "".
Proof.
  intros H. rewrite (submit_blank net s H). cbn. repeat split; reflexivity.
Qed.

Lemma blank_question_is_noop_witness :
  trim (query (asked "   ")) = ""
  /\ ui (snd (submit (answering sample_response) (asked "   "))) = asked "   ".
Proof.
  split; [reflexivity |].
  apply (blank_question_is_noop (answering sample_response) (asked "   ")).
  reflexivity.
Defined.

(** C5. For a question that is not empty after trimming, submit returns
    normally and calls [setIsLoading(false)] exactly once, as its last call,
    whichever of the three paths (success, handled failure, transport
    exception) the network makes it take. *)
Theorem loading_cleared_exactly_once (net : network) (s : UIState) :
  trim (query s) <> "" ->
  fst (submit net s) = inr tt
  /\ loading_cleared (trace (snd (submit net s))) = 1
  /\ last (trace (snd (submit net s))) (SetIsLoading true) = SetIsLoading false
  /\ isLoading (ui (snd (submit net s))) = false
  /\ ui (snd (submit net s)) = final_state s (exit_path net (query s)).
Proof.
  intros H. rewrite (submit_runs net s H). cbn [fst snd ui trace].
  split; [reflexivity |]. split.
  - apply (loading_cleared_settle _
             [SetError (str ""); SetIsLoading true;
              Fetch (process_query (query s))]).
  - split; [| split].
    + apply (last_settle _
               [SetError (str ""); SetIsLoading true;
                Fetch (process_query (query s))]).
    + apply isLoading_final.
    + reflexivity.
Qed.

Lemma loading_cleared_exactly_once_witness :
  trim (query (asked "top regions")) <> ""
  /\ loading_cleared
       (trace (snd (submit (answering sample_response) (asked "top regions"))))
     = 1
  /\ loading_cleared
       (trace (snd (submit (answering no_such_table) (asked "top regions"))))
     = 1
  /\ loading_cleared
       (trace (snd (submit (fun _ => None) (asked "top regions"))))
     = 1.
Proof.
  assert (H : trim (query (asked "top regions")) <> "") by (cbn; discriminate).
  split; [exact H |].
  split; [| split].
  - apply (loading_cleared_exactly_once (answering sample_response) _ H).
  - apply (loading_cleared_exactly_once (answering no_such_table) _ H).
  - apply (loading_cleared_exactly_once (fun _ => None) _ H).
Defined.

(** C6. On a transport failure ([fetch] rejects, or the body is not JSON)
    submit sets sql to the empty string, latency and chartData to null, and
    the error to "There was a problem connecting to the server.". *)
Theorem transport_failure_clears (net : network) (s : UIState) :
  trim (query s) <> "" ->
  transport_failure net (query s) ->
  sqlOutput (ui (snd (submit net s))) = str ""
  /\ latency (ui (snd (submit net s))) = null
  /\ chartData (ui (snd (submit net s))) = null
  /\ error (ui (snd (submit net s)))
     = str "There was a problem connecting to the server."
  /\ isLoading (ui (snd (submit net s))) = false
  /\ query (ui (snd (submit net s))) = query s.
Proof.
  intros H Hfail. rewrite (submit_runs net s H).
  rewrite (exit_path_transport _ _ Hfail). cbn. repeat split; reflexivity.
Qed.

Lemma transport_failure_clears_witness :
  transport_failure (fun _ => Some {| json := None |})
                    (query (asked "top regions"))
  /\ error (ui (snd (submit (fun _ => Some {| json := None |})
                            (asked "top regions"))))
     = str "There was a problem connecting to the server.".
Proof.
  assert (F : transport_failure (fun _ => Some {| json := None |})
                                (query (asked "top regions"))).
  { right. exists {| json := None |}. split; reflexivity. }
  split; [exact F |].
  apply (transport_failure_clears (fun _ => Some {| json := None |})
                                  (asked "top regions")).
  - cbn. discriminate.
  - exact F.
Defined.

(** C4, as the specification has it, fails: a results field that is not
    null but falsy (here the number 0) does not reach the success branch.
    The sql state is not the response's sql_query, the chart data is not
    the results field, and the error is not empty. *)
Lemma nonnull_results_counterexample :
  trim (query (asked "top regions")) <> ""
  /\ property zero_results "results" = num 0
  /\ property zero_results "results" <> null
  /\ sqlOutput (ui (snd (submit (answering zero_results) (asked "top regions"))))
     <> property zero_results "sql_query"
  /\ chartData (ui (snd (submit (answering zero_results) (asked "top regions"))))
     <> property zero_results "results"
  /\ error (ui (snd (submit (answering zero_results) (asked "top regions"))))
     <> str "".
Proof.
  cbn. repeat split; discriminate.
Qed.

(** C4, amended. For every response whose results field is truthy (any
    array, the empty one included), submit stores the response's sql_query
    as the sql state, its latency (null when absent or null) as the latency
    state and the results as the chart data, and leaves the error empty.
    For the sample response the state becomes sql = "SELECT ...", chartData
    the two result rows, error = "". *)
Theorem truthy_results_stored
  (net : network) (s : UIState) (resp : response) (data : value) :
  trim (query s) <> "" ->
  net (process_query (query s)) = Some resp ->
  json resp = Some data ->
  truthy (property data "results") = true ->
  ui (snd (submit net s))
  = {| query := query s;
       sqlOutput := property data "sql_query";
       latency := coalesce (property data "latency") null;
       chartData := property data "results";
       isLoading := false;
       error := str "" |}
  /\ (property data "latency" = Prim Undefined ->
      latency (ui (snd (submit net s))) = null)
  /\ ui (snd (submit (answering sample_response) (asked "top regions")))
     = {| query := "top regions";
          sqlOutput := str "SELECT ...";
          latency := half_second;
          chartData := two_rows;
          isLoading := false;
          error := str "" |}.
Proof.
  intros H Hnet Hjson Ht. rewrite (submit_runs net s H).
  rewrite (exit_path_success _ _ _ _ Hnet Hjson Ht). cbn [snd ui final_state].
  split; [reflexivity |]. split.
  - intros Hl. cbn. rewrite Hl. reflexivity.
  - reflexivity.
Qed.

Lemma truthy_results_stored_witness :
  truthy (property (Obj [("results", Arr []); ("sql_query", str "SELECT 1")])
                   "results") = true
  /\ chartData
       (ui (snd (submit
                   (answering (Obj [("results", Arr []);
                                    ("sql_query", str "SELECT 1")]))
                   (asked "top regions"))))
     = Arr [].
Proof.
  split; [reflexivity |].
  pose proof
    (truthy_results_stored
       (answering (Obj [("results", Arr []); ("sql_query", str "SELECT 1")]))
       (asked "top regions")
       {| json := Some (Obj [("results", Arr []);
                             ("sql_query", str "SELECT 1")]) |}
       (Obj [("results", Arr []); ("sql_query", str "SELECT 1")])) as T.
  destruct T as [T _].
  - cbn. discriminate.
  - reflexivity.
  - reflexivity.
  - reflexivity.
  - rewrite T. reflexivity.
Defined.

(** C3, as the specification has it, fails: on the body
    [{"detail":"no such table"}] the sql state does not become the empty
    string; it becomes the text "Error generating SQL query". *)
Lemma no_results_counterexample :
  trim (query (asked "top regions")) <> ""
  /\ property no_such_table "results" = Prim Undefined
  /\ sqlOutput (ui (snd (submit (answering no_such_table) (asked "top regions"))))
     = str "Error generating SQL query"
  /\ sqlOutput (ui (snd (submit (answering no_such_table) (asked "top regions"))))
     <> str "".
Proof.
  cbn. repeat split; discriminate.
Qed.

(** C3, amended. For every response whose JSON body is not null and whose
    results field is absent or falsy, submit sets sql to the fixed text
    "Error generating SQL query", latency and chartData to null, and the
    error to the response's detail when that is truthy (a non-empty string,
    say), else to "Unable to generate SQL query.".  On the body
    [{"detail":"no such table"}] the error becomes "no such table". *)
Theorem unusable_results_reported
  (net : network) (s : UIState) (resp : response) (data : value) :
  trim (query s) <> "" ->
  net (process_query (query s)) = Some resp ->
  json resp = Some data ->
  data <> Prim Null ->
  data <> Prim Undefined ->
  truthy (property data "results") = false ->
  ui (snd (submit net s))
  = {| query := query s;
       sqlOutput := str "Error generating SQL query";
       latency := null;
       chartData := null;
       isLoading := false;
       error := or_else (property data "detail")
                        (str "Unable to generate SQL query.") |}
  /\ (forall d, property data "detail" = str d -> d <> "" ->
      error (ui (snd (submit net s))) = str d)
  /\ (property data "detail" = Prim Undefined ->
      error (ui (snd (submit net s))) = str "Unable to generate SQL query.")
  /\ error (ui (snd (submit (answering no_such_table) (asked "top regions"))))
     = str "no such table".
Proof.
  intros H Hnet Hjson Hn Hu Ht. rewrite (submit_runs net s H).
  rewrite (exit_path_handled _ _ _ _ Hnet Hjson Hn Hu Ht).
  cbn [snd ui final_state error].
  split; [reflexivity |]. split; [| split].
  - intros d Hd Hne. rewrite Hd. unfold or_else, str. cbn.
    destruct d; [congruence | reflexivity].
  - intros Hd. rewrite Hd. reflexivity.
  - reflexivity.
Qed.

Lemma unusable_results_reported_witness :
  truthy (property no_such_table "results") = false
  /\ ui (snd (submit (answering no_such_table) (asked "top regions")))
     = {| query := "top regions";
          sqlOutput := str "Error generating SQL query";
          latency := null;
          chartData := null;
          isLoading := false;
          error := str "no such table" |}.
Proof.
  split; [reflexivity |].
  pose proof
    (unusable_results_reported (answering no_such_table) (asked "top regions")
       {| json := Some no_such_table |} no_such_table) as T.
  destruct T as [T _].
  - cbn. discriminate.
  - reflexivity.
  - reflexivity.
  - discriminate.
  - discriminate.
  - reflexivity.
  - rewrite T. reflexivity.
Defined.

(** C9. The handler branches on the truthiness of the results field: when
    the field is present but falsy (0, "", false and NaN are such values,
    none of them null) submit takes the application-error branch; when it is
    the empty array, which is truthy, submit takes the success branch and
    stores the empty array as chart data. *)
Theorem results_tested_for_truthiness
  (net : network) (s : UIState) (resp : response)
  (props : list (string * value)) (v : value) :
  trim (query s) <> "" ->
  net (process_query (query s)) = Some resp ->
  json resp = Some (Obj props) ->
  lookup props "results" = Some v ->
  (truthy v = false ->
   exit_path net (query s) = HandledFailure (Obj props)
   /\ submit net s
      = (inr tt,
         {| ui := final_state s (HandledFailure (Obj props));
            trace :=
              [SetError (str ""); SetIsLoading true;
               Fetch (process_query (query s));
               SetSqlOutput (str "Error generating SQL query");
               SetLatency null;
               SetChartData null;
               SetError (or_else (property (Obj props) "detail")
                                 (str "Unable to generate SQL query."));
               SetIsLoading false] |}))
  /\ (v = Arr [] ->
      exit_path net (query s) = Success (Obj props)
      /\ chartData (ui (snd (submit net s))) = Arr []
      /\ error (ui (snd (submit net s))) = str "")
  /\ Forall (fun f => truthy f = false /\ f <> null)
            [num 0; str ""; Prim (Boolean false); Prim (Num NaN)].
Proof.
  intros H Hnet Hjson Hres.
  assert (Hp : property (Obj props) "results" = v).
  { cbn. rewrite Hres. reflexivity. }
  split; [| split].
  - intros Hf.
    assert (E : exit_path net (query s) = HandledFailure (Obj props)).
    { apply (exit_path_handled _ _ resp); try assumption; try discriminate.
      rewrite Hp. exact Hf. }
    split; [exact E |].
    rewrite (submit_runs net s H), E. reflexivity.
  - intros Hv.
    assert (E : exit_path net (query s) = Success (Obj props)).
    { apply (exit_path_success _ _ resp); try assumption.
      rewrite Hp, Hv. reflexivity. }
    split; [exact E |].
    rewrite (submit_runs net s H), E. cbn [snd ui final_state chartData error].
    rewrite Hp, Hv. split; reflexivity.
  - repeat constructor; discriminate.
Qed.

Lemma results_tested_for_truthiness_witness :
  (truthy (num 0) = false
   /\ sqlOutput (ui (snd (submit (answering zero_results)
                                 (asked "top regions"))))
      = str "Error generating SQL query")
  /\ chartData
       (ui (snd (submit (answering (Obj [("results", Arr [])]))
                        (asked "top regions"))))
     = Arr [].
Proof.
  assert (Q : trim (query (asked "top regions")) <> "") by (cbn; discriminate).
  split.
  - split; [reflexivity |].
    destruct (results_tested_for_truthiness
                (answering zero_results) (asked "top regions")
                {| json := Some zero_results |}
                [("results", num 0); ("sql_query", str "SELECT 1")] (num 0)
                Q eq_refl eq_refl eq_refl) as [T _].
    destruct (T eq_refl) as [_ R]. rewrite R. reflexivity.
  - destruct (results_tested_for_truthiness
                (answering (Obj [("results", Arr [])])) (asked "top regions")
                {| json := Some (Obj [("results", Arr [])]) |}
                [("results", Arr [])] (Arr [])
                Q eq_refl eq_refl eq_refl) as [_ [T _]].
    destruct (T eq_refl) as [_ [R _]]. exact R.
Defined.

(* ===================================================================== *)
(** ** Own properties: reading after writing *)
(* ===================================================================== *)

Section PropertyFacts.
Context {A : Type}.
Implicit Types (o : list (string * A)) (k : string) (v : A).

Lemma lookup_None_iff o k : lookup o k = None <-> ~ In k (keys o).
Proof.
  induction o as [| [k' v'] o IH]; cbn.
  - tauto.
  - destruct (String.eqb_spec k' k) as [-> | Hne].
    + split; [discriminate | intros H; exfalso; apply H; now left].
    + rewrite IH. tauto.
Qed.

Lemma lookup_update o k v k' :
  lookup (update o k v) k'
  = if k =? k' then match lookup o k with Some _ => Some v | None => None end
    else lookup o k'.
Proof.
  induction o as [| [k0 v0] o IH]; cbn.
  - destruct (k =? k'); reflexivity.
  - destruct (String.eqb_spec k0 k) as [-> | Hne]; cbn.
    + destruct (String.eqb_spec k k'); reflexivity.
    + destruct (String.eqb_spec k0 k') as [-> | Hne'].
      * destruct (String.eqb_spec k k'); [congruence | reflexivity].
      * exact IH.
Qed.

Lemma lookup_insert_index i o k v k' :
  lookup o k = None ->
  lookup (insert_index i k v o) k' = if k =? k' then Some v else lookup o k'.
Proof.
  induction o as [| [k0 v0] o IH]; cbn; intros Hk.
  - reflexivity.
  - destruct (String.eqb_spec k0 k) as [-> | Hne]; [discriminate |].
    destruct (array_index k0) as [j |]; [destruct (j <? i)%Z |]; cbn;
      try reflexivity.
    rewrite (IH Hk).
    destruct (String.eqb_spec k0 k') as [-> | Hne'];
      [destruct (String.eqb_spec k k'); [congruence | reflexivity]
      | reflexivity].
Qed.

Lemma lookup_append o k v k' :
  lookup o k = None ->
  lookup (o ++ [(k, v)]) k' = if k =? k' then Some v else lookup o k'.
Proof.
  induction o as [| [k0 v0] o IH]; cbn; intros Hk.
  - reflexivity.
  - destruct (String.eqb_spec k0 k) as [-> | Hne]; [discriminate |].
    rewrite (IH Hk).
    destruct (String.eqb_spec k0 k') as [-> | Hne'];
      [destruct (String.eqb_spec k k'); [congruence | reflexivity]
      | reflexivity].
Qed.

(** Reading [k'] after [o[k] = v]. *)
Lemma lookup_set o k v k' :
  lookup (set o k v) k' = if k =? k' then Some v else lookup o k'.
Proof.
  unfold set. destruct (lookup o k) as [v0 |] eqn:E.
  - rewrite lookup_update, E. reflexivity.
  - destruct (array_index k).
    + apply lookup_insert_index. exact E.
    + apply lookup_append. exact E.
Qed.

Lemma In_keys_lookup o k : In k (keys o) <-> lookup o k <> None.
Proof.
  rewrite lookup_None_iff.
  destruct (in_dec string_dec k (keys o)); tauto.
Qed.

(** The keys after [o[k] = v]: [k] and those there were. *)
Lemma keys_set o k v k' :
  In k' (keys (set o k v)) <-> k' = k \/ In k' (keys o).
Proof.
  rewrite !In_keys_lookup, lookup_set.
  destruct (String.eqb_spec k k') as [-> | Hne].
  - split; [now left | discriminate].
  - split; [now right | intros [-> | H]; [congruence | exact H]].
Qed.
End PropertyFacts.

(* ===================================================================== *)
(** ** [ChartPreview]: proofs *)
(* ===================================================================== *)

Lemma is_object_RObj (r : row) : is_object r = true <-> exists o, r = RObj o.
Proof.
  destruct r as [p | o].
  - split; [| intros [o H]; discriminate].
    destruct p as [| |b|n|s]; unfold is_object; cbn;
      try discriminate; rewrite andb_false_r; discriminate.
  - split; [eauto | reflexivity].
Qed.

Lemma find_is_object (rows : list row) :
  find is_object rows = option_map RObj (hd_error (objects rows)).
Proof.
  induction rows as [| [p | o] rows IH]; cbn; try reflexivity.
  destruct (is_object (RPrim p)) eqn:E; [| exact IH].
  apply is_object_RObj in E. destruct E as [o E]. discriminate.
Qed.

Lemma filter_is_object (rows : list row) :
  filter is_object rows = map RObj (objects rows).
Proof.
  induction rows as [| [p | o] rows IH]; cbn [filter objects map].
  - reflexivity.
  - destruct (is_object (RPrim p)) eqn:E; [| exact IH].
    apply is_object_RObj in E. destruct E as [o E]. discriminate.
  - cbn. rewrite IH. reflexivity.
Qed.

Lemma filter_is_object_map (rs : list record) :
  filter is_object (map RObj rs) = map RObj rs.
Proof. induction rs as [| o rs IH]; cbn; [| rewrite IH]; reflexivity. Qed.

Lemma find_pointwise {A} (f g : A -> bool) (l : list A) :
  (forall a, f a = g a) -> find f l = find g l.
Proof.
  intros H. induction l as [| a l IH]; cbn; [reflexivity |].
  rewrite H, IH. reflexivity.
Qed.

Lemma includes_string_number (p : prim) :
  includes ["string"; "number"] (typeof p) = is_string_or_number p.
Proof. destruct p; reflexivity. Qed.

Lemma number_and_finite (p : prim) :
  (typeof p =? "number") && Number_isFinite p = is_finite_number p.
Proof. destruct p; reflexivity. Qed.

(** The code infers the shape the specification describes, except that it
    gives up when the category key is the empty string. *)
Lemma chartStructure_shape (d : data) :
  chartStructure d
  = match shape d with
    | Some cs => if xKey cs =? "" then None else Some cs
    | None => None
    end.
Proof.
  destruct d as [p | o | rows]; try reflexivity.
  unfold chartStructure, shape. rewrite find_is_object.
  destruct rows as [| r rows]; [reflexivity |].
  cbn [List.length Nat.eqb].
  destruct (objects (r :: rows)) as [| sample os]; [reflexivity |].
  cbn [hd_error option_map Object_keys field].
  unfold category_key, value_keys.
  rewrite (find_pointwise _
             (fun key => is_string_or_number (get sample key)))
    by (intros key; apply includes_string_number).
  destruct (keys sample) as [| k0 ks] eqn:K; [reflexivity |].
  cbn [List.length Nat.eqb].
  destruct (find _ (k0 :: ks)) as [x |]; [| reflexivity].
  rewrite (filter_ext _
             (fun key => negb (key =? x) && is_finite_number (get sample key))).
  2:{ intros key. destruct (key =? x); [reflexivity |].
      cbn [negb andb]. apply number_and_finite. }
  cbn [truthy_prim].
  destruct (x =? "") eqn:X; cbn [negb].
  - destruct (filter _ (k0 :: ks)); cbn [xKey]; rewrite ?X; reflexivity.
  - destruct (filter _ (k0 :: ks)); cbn [List.length Nat.eqb xKey];
      rewrite ?X; reflexivity.
Qed.

Lemma chartStructure_Some (d : data) (cs : structure) :
  chartStructure d = Some cs -> shape d = Some cs /\ xKey cs <> "".
Proof.
  rewrite chartStructure_shape. destruct (shape d) as [cs' |]; [| discriminate].
  destruct (String.eqb_spec (xKey cs') ""); [discriminate |].
  intros E. injection E as <-. split; [reflexivity | assumption].
Qed.

(** A value key is never the category key. *)
Lemma shape_keys_apart (d : data) (cs : structure) :
  shape d = Some cs -> ~ In (xKey cs) (yKeys cs).
Proof.
  destruct d as [p | o | rows]; try discriminate. unfold shape.
  destruct (objects rows) as [| sample os]; [discriminate |].
  destruct (category_key sample) as [x |]; [| discriminate].
  destruct (value_keys sample x) as [| y ys] eqn:V; [discriminate |].
  intros E. injection E as <-. cbn [xKey yKeys]. rewrite <- V.
  unfold value_keys. intros Hin. apply filter_In in Hin.
  destruct Hin as [_ Hin]. rewrite String.eqb_refl in Hin. discriminate.
Qed.

(** The coercion the code applies to what it read is the specified one. *)
Lemma Number_of_read_row (r : row) (key : string) :
  Number_of (read_row r key) = Number (field r key).
Proof.
  destruct r as [p | o]; [reflexivity |]. cbn [read_row field].
  unfold read, get. destruct (lookup o key); [reflexivity |].
  destruct (inherits key); reflexivity.
Qed.

Lemma coerced_code (r : row) (key : string) :
  (if Number_isFinite (Num (Number_of (read_row r key)))
   then Num (Number_of (read_row r key)) else Null)
  = coerced (field r key).
Proof.
  rewrite Number_of_read_row. unfold coerced.
  destruct (Number (field r key)); reflexivity.
Qed.

Lemma includes_In (l : list string) (k : string) :
  includes l k = true <-> In k l.
Proof.
  unfold includes. rewrite existsb_exists. split.
  - intros (x & Hin & E). apply String.eqb_eq in E. subst. exact Hin.
  - intros Hin. exists k. split; [exact Hin | apply String.eqb_refl].
Qed.

(** *** Reading after [o[k] = v] *)

(** Any key but the one assigned reads as before. *)
Lemma lookup_assign_other (o : object) (k k' : string) (v : cell) :
  k <> k' -> lookup (own (assign o k v)) k' = lookup (own o) k'.
Proof.
  intros N. apply String.eqb_neq in N. unfold assign.
  destruct (k =? "__proto__").
  - destruct (lookup (own o) k) as [c |]; [| destruct (proto o)];
      cbn [own]; rewrite ?lookup_set, ?N; try reflexivity.
    destruct v as [[| |b|n|t] |]; reflexivity.
  - cbn [own]. rewrite lookup_set, N. reflexivity.
Qed.

(** A key other than [__proto__] reads as what was assigned. *)
Lemma lookup_assign_same (o : object) (k : string) (v : cell) :
  k <> "__proto__" -> lookup (own (assign o k v)) k = Some v.
Proof.
  intros N. apply String.eqb_neq in N. unfold assign. rewrite N.
  cbn [own]. rewrite lookup_set, String.eqb_refl. reflexivity.
Qed.

Lemma lookup_assign (o : object) (k k' : string) (v : cell) :
  k' <> "__proto__" ->
  lookup (own (assign o k v)) k' = if k =? k' then Some v else lookup (own o) k'.
Proof.
  intros N. destruct (String.eqb_spec k k') as [-> | D].
  - apply lookup_assign_same. exact N.
  - apply lookup_assign_other. exact D.
Qed.

Lemma proto_assign (o : object) (k : string) (v : cell) :
  k <> "__proto__" -> proto (assign o k v) = proto o.
Proof.
  intros N. apply String.eqb_neq in N. unfold assign. rewrite N. reflexivity.
Qed.

(** What the [forEach] over the value keys has written, read back. *)
Lemma lookup_forEach (r : row) (ys : list string) (entry : object) (k : string) :
  k <> "__proto__" ->
  lookup
    (own
       (fold_left (fun entry key =>
                     let value := Number_of (read_row r key) in
                     assign entry key
                            (Value (if Number_isFinite (Num value)
                                    then Num value else Null)))
                  ys entry)) k
  = if includes ys k then Some (Value (coerced (field r k)))
    else lookup (own entry) k.
Proof.
  intros N. revert entry. unfold includes.
  induction ys as [| y ys IH]; intros entry; cbn [fold_left existsb].
  - reflexivity.
  - rewrite IH, (lookup_assign _ _ _ _ N). cbv zeta. rewrite coerced_code.
    destruct (existsb (String.eqb k) ys).
    + rewrite orb_true_r. reflexivity.
    + rewrite orb_false_r, (String.eqb_sym k y).
      destruct (String.eqb_spec y k) as [-> |]; reflexivity.
Qed.

(** A sanitized record, read back at any key but [__proto__]. *)
Lemma lookup_entry_of (cs : structure) (r : row) (k : string) :
  k <> "__proto__" ->
  lookup (own (entry_of cs r)) k
  = if xKey cs =? k then Some (read_row r (xKey cs))
    else if includes (yKeys cs) k then Some (Value (coerced (field r k)))
    else None.
Proof.
  intros N. unfold entry_of.
  rewrite (lookup_assign _ _ _ _ N), (lookup_forEach _ _ _ _ N). reflexivity.
Qed.

(** While no key is [__proto__] the chain stays where it was. *)
Lemma proto_forEach (r : row) (ys : list string) (entry : object) :
  ~ In "__proto__" ys ->
  proto
    (fold_left (fun entry key =>
                  let value := Number_of (read_row r key) in
                  assign entry key
                         (Value (if Number_isFinite (Num value)
                                 then Num value else Null)))
               ys entry)
  = proto entry.
Proof.
  revert entry. induction ys as [| y ys IH]; intros entry N; cbn [fold_left].
  - reflexivity.
  - rewrite IH by (intros H; apply N; now right).
    apply proto_assign. intros ->. apply N. now left.
Qed.

Lemma coerced_cases (p : prim) : finite_or_null (Value (coerced p)).
Proof.
  unfold finite_or_null, coerced. destruct (Number p) as [s | s | | s m e]; eauto.
Qed.

(** Whatever the [forEach] leaves under a key is a finite number or null,
    [__proto__] included. *)
Lemma forEach_finite_or_null (r : row) (ys : list string) (entry : object) :
  (forall k c, lookup (own entry) k = Some c -> finite_or_null c) ->
  forall k c,
    lookup
      (own
         (fold_left (fun entry key =>
                       let value := Number_of (read_row r key) in
                       assign entry key
                              (Value (if Number_isFinite (Num value)
                                      then Num value else Null)))
                    ys entry)) k = Some c ->
    finite_or_null c.
Proof.
  revert entry. induction ys as [| y ys IH]; intros entry I; cbn [fold_left].
  - exact I.
  - apply IH. intros k c. cbv zeta. rewrite coerced_code.
    destruct (String.eqb_spec y k) as [<- | D].
    + unfold assign. destruct (y =? "__proto__").
      * destruct (lookup (own entry) y) as [c0 |] eqn:L;
          [| destruct (proto entry)]; cbn [own];
          rewrite ?lookup_set, ?String.eqb_refl.
        -- intros E. injection E as <-. apply coerced_cases.
        -- pose proof (coerced_cases (field r y)) as C.
           destruct (coerced (field r y)); cbn [own]; rewrite ?L;
             discriminate.
        -- intros E. injection E as <-. apply coerced_cases.
      * cbn [own]. rewrite lookup_set, String.eqb_refl.
        intros E. injection E as <-. apply coerced_cases.
    + rewrite (lookup_assign_other _ _ _ _ D). apply I.
Qed.

Lemma sanitized_rows (rows : list row) (cs : structure) :
  chartStructure (DArr rows) = Some cs ->
  sanitized (DArr rows) = map (fun o => entry_of cs (RObj o)) (objects rows).
Proof.
  intros H. unfold sanitized. rewrite H, filter_is_object, map_map.
  reflexivity.
Qed.

Lemma Forall2_map_right {A B} (R : A -> B -> Prop) (f : A -> B) (l : list A) :
  (forall a, In a l -> R a (f a)) -> Forall2 R l (map f l).
Proof.
  induction l as [| a l IH]; cbn; intros H; constructor.
  - apply H. now left.
  - apply IH. intros b Hb. apply H. now right.
Qed.

(** The keys of a sanitized record, when none of the shape's is
    [__proto__]. *)
Lemma keys_entry_of (cs : structure) (r : row) (k : string) :
  xKey cs <> "__proto__" ->
  ~ In "__proto__" (yKeys cs) ->
  In k (keys (own (entry_of cs r))) <-> k = xKey cs \/ In k (yKeys cs).
Proof.
  intros Nx Ny. rewrite In_keys_lookup.
  destruct (String.eqb_spec k "__proto__") as [-> | N].
  - split; [| intros [E | I]; [congruence | contradiction]].
    intros H. exfalso. apply H. unfold entry_of.
    rewrite lookup_assign_other by exact Nx.
    assert (G : forall ys entry,
               ~ In "__proto__" ys ->
               lookup (own entry) "__proto__" = None ->
               lookup
                 (own
                    (fold_left
                       (fun entry key =>
                          let value := Number_of (read_row r key) in
                          assign entry key
                                 (Value (if Number_isFinite (Num value)
                                         then Num value else Null)))
                       ys entry)) "__proto__" = None).
    { induction ys as [| y ys IH]; intros entry N0 L; cbn [fold_left].
      - exact L.
      - apply IH; [intros I; apply N0; now right |].
        rewrite lookup_assign_other; [exact L |].
        intros ->. apply N0. now left. }
    apply G; [exact Ny | reflexivity].
  - rewrite (lookup_entry_of cs r k N).
    destruct (String.eqb_spec (xKey cs) k) as [<- | D].
    + split; [now left | discriminate].
    + destruct (includes (yKeys cs) k) eqn:I.
      * apply includes_In in I. split; [now right | discriminate].
      * split; [intros H; now elim H |].
        intros [E | Hin]; [congruence |].
        apply includes_In in Hin. congruence.
Qed.

(** For a shape none of whose keys is [__proto__], each object row is
    projected as specified. *)
Lemma entry_of_sanitized (cs : structure) (o : record) :
  ~ In (xKey cs) (yKeys cs) ->
  xKey cs <> "__proto__" ->
  ~ In "__proto__" (yKeys cs) ->
  sanitized_from cs o (entry_of cs (RObj o))
  /\ proto (entry_of cs (RObj o)) = Ordinary.
Proof.
  intros Hx Nx Ny. split; [split; [| split] |].
  - rewrite (lookup_entry_of _ _ _ Nx), String.eqb_refl. reflexivity.
  - intros key Hin.
    assert (N : key <> "__proto__") by (intros ->; contradiction).
    rewrite (lookup_entry_of _ _ _ N).
    destruct (String.eqb_spec (xKey cs) key) as [<- |]; [contradiction |].
    apply includes_In in Hin. rewrite Hin. reflexivity.
  - intros key. apply keys_entry_of; assumption.
  - unfold entry_of. rewrite (proto_assign _ _ _ Nx).
    apply (proto_forEach (RObj o) (yKeys cs) fresh Ny).
Qed.

(** C8, at the input [[{"name":"A","__proto__":5}]]: the shape is
    categoryKey "name", valueKeys ["__proto__"], and the claim has the
    sanitized record hold the number 5 under "__proto__".  The code writes
    [entry["__proto__"] = 5] on a fresh object, which runs the setter
    inherited from [Object.prototype] and defines nothing: the record holds
    the category alone.  The claim's own sample, whose keys are ordinary,
    is sanitized as the claim says. *)
Theorem proto_value_key_dropped :
  chartStructure proto_column
  = Some {| xKey := "name"; yKeys := ["__proto__"] |}
  /\ sanitized proto_column
     = [{| own := [("name", Value (Str "A"))]; proto := Ordinary |}]
  /\ ~ Forall2 (sanitized_from {| xKey := "name"; yKeys := ["__proto__"] |})
               [[("name", Str "A"); ("__proto__", Num (of_Z 5))]]
               (sanitized proto_column)
  /\ chartStructure name_value_rows
     = Some {| xKey := "name"; yKeys := ["value"] |}
  /\ sanitized name_value_rows
     = [{| own := [("value", Value (Num (of_Z 5))); ("name", Value (Str "A"))];
           proto := Ordinary |};
        {| own := [("value", Value Null); ("name", Value (Str "B"))];
           proto := Ordinary |}].
Proof.
  split; [reflexivity |]. split; [reflexivity |].
  split; [| split; reflexivity].
  intros F. inversion F as [| o e os es S _]; subst.
  destruct S as (_ & V & _).
  specialize (V "__proto__" (or_introl eq_refl)). discriminate V.
Qed.

(** C1, at the input [[{"":"A","value":5}]]: the sample row has a field
    holding a string, and another holding a finite number, so the
    specification's inference selects categoryKey "" and valueKeys
    ["value"]; the code yields no chart. *)
Theorem unnamed_category_no_chart :
  shape unnamed_category = Some {| xKey := ""; yKeys := ["value"] |}
  /\ chartStructure unnamed_category = None
  /\ sanitized unnamed_category = [].
Proof. repeat split; reflexivity. Qed.

(** C10. The category key that was found is tested for truthiness: when
    the first field of the sample row that holds a string or a number is
    named by the empty string, the result is no chart, although that field
    qualifies as the category. *)
Theorem empty_category_key_rejected (rows : list row) (sample : row) :
  find is_object rows = Some sample ->
  find (fun key => includes ["string"; "number"] (typeof (field sample key)))
       (Object_keys sample) = Some "" ->
  chartStructure (DArr rows) = None
  /\ In "" (Object_keys sample)
  /\ is_string_or_number (field sample "") = true.
Proof.
  intros Hs Hx. split.
  - unfold chartStructure. rewrite Hs, Hx.
    destruct rows as [| r rows]; [reflexivity |]. cbn [List.length Nat.eqb].
    destruct (Object_keys sample); reflexivity.
  - apply find_some in Hx. destruct Hx as [Hin Hty]. split; [exact Hin |].
    rewrite <- includes_string_number. exact Hty.
Qed.

Lemma empty_category_key_rejected_witness :
  chartStructure unnamed_category = None
  /\ In "" (Object_keys (RObj [("", Str "A"); ("value", Num (of_Z 5))])).
Proof.
  destruct (empty_category_key_rejected
              [RObj [("", Str "A"); ("value", Num (of_Z 5))]]
              (RObj [("", Str "A"); ("value", Num (of_Z 5))])
              eq_refl eq_refl) as [N [I _]].
  split; [exact N | exact I].
Defined.

Lemma coerced_twice (p : prim) :
  coerced (coerced p)
  = match coerced p with
    | Null => Num (S754_zero false)
    | v => v
    end.
Proof. unfold coerced. destruct (Number p); reflexivity. Qed.

(* ===================================================================== *)
(** ** Sanitizing the sanitized output *)
(* ===================================================================== *)

(** *** The order of own keys *)

Lemma own_key_order_cons (k : string) (ks : list string) :
  own_key_order (k :: ks) = true ->
  (forall k', In k' ks -> key_before k k' = true) /\ own_key_order ks = true.
Proof.
  cbn [own_key_order]. intros H. apply andb_prop in H. destruct H as [F O].
  split; [| exact O]. intros k' I. rewrite forallb_forall in F. apply F, I.
Qed.

Lemma own_key_order_app (pre : list string) (y : string) (ys : list string) :
  own_key_order (pre ++ y :: ys) = true ->
  forall k, In k pre -> key_before k y = true.
Proof.
  induction pre as [| p pre IH]; intros O k I; [destruct I |].
  cbn [app] in O. apply own_key_order_cons in O. destruct O as [F O].
  destruct I as [<- | I].
  - apply F. apply in_or_app. right. now left.
  - apply (IH O k I).
Qed.

Lemma own_key_order_filter (f : string -> bool) (ks : list string) :
  own_key_order ks = true -> own_key_order (filter f ks) = true.
Proof.
  induction ks as [| k ks IH]; intros O; [reflexivity |].
  apply own_key_order_cons in O. destruct O as [F O]. cbn [filter].
  destruct (f k); [| exact (IH O)].
  cbn [own_key_order]. rewrite (IH O), andb_true_r.
  apply forallb_forall. intros k' I. apply filter_In in I. apply F, I.
Qed.

Lemma key_before_irrefl (k : string) : key_before k k = false.
Proof.
  unfold key_before. destruct (array_index k) as [i |].
  - apply Z.ltb_irrefl.
  - rewrite String.eqb_refl. reflexivity.
Qed.

(** In a key list in order, the keys that [filter] keeps after the first
    key that [find] accepts come after that key. *)
Lemma found_before_filtered (P Q : string -> bool) (ks : list string) (x : string) :
  own_key_order ks = true ->
  find P ks = Some x ->
  (forall k, Q k = true -> P k = true /\ k <> x) ->
  forall y, In y (filter Q ks) -> key_before x y = true.
Proof.
  induction ks as [| k ks IH]; intros O F QP y I; [discriminate F |].
  apply own_key_order_cons in O. destruct O as [B O]. cbn [find] in F.
  cbn [filter] in I. destruct (P k) eqn:Pk.
  - injection F as <-. destruct (Q k) eqn:Qk.
    + destruct (QP k Qk) as [_ N]. now elim N.
    + apply filter_In in I. apply B, I.
  - destruct (Q k) eqn:Qk.
    + destruct (QP k Qk) as [T _]. congruence.
    + apply (IH O F QP y I).
Qed.

(** *** A property defined last, or first *)

Section Placement.
Context {A : Type}.
Implicit Types (o : list (string * A)) (k : string) (v : A).

Lemma insert_index_last i o k v :
  (forall k', In k' (keys o) ->
     exists j, array_index k' = Some j /\ (j < i)%Z) ->
  insert_index i k v o = (o ++ [(k, v)])%list.
Proof.
  induction o as [| [k0 v0] o IH]; intros H; cbn [insert_index app].
  - reflexivity.
  - destruct (H k0 (or_introl eq_refl)) as (j & -> & L).
    apply Z.ltb_lt in L. rewrite L, IH; [reflexivity |].
    intros k' I. apply H. now right.
Qed.

(** A new key that may come after all the keys there are goes last. *)
Lemma set_last o k v :
  lookup o k = None ->
  (forall k', In k' (keys o) -> key_before k' k = true) ->
  set o k v = (o ++ [(k, v)])%list.
Proof.
  intros L B. unfold set. rewrite L.
  destruct (array_index k) as [i |] eqn:I; [| reflexivity].
  apply insert_index_last. intros k' Hin. specialize (B k' Hin).
  unfold key_before in B. rewrite I in B.
  destruct (array_index k') as [j |]; [| discriminate B].
  exists j. split; [reflexivity | apply Z.ltb_lt, B].
Qed.

(** A new array index that may come before all the keys there are goes
    first. *)
Lemma set_first o k v :
  lookup o k = None ->
  array_index k <> None ->
  (forall k', In k' (keys o) -> key_before k k' = true) ->
  set o k v = (k, v) :: o.
Proof.
  intros L I B. unfold set. rewrite L.
  destruct (array_index k) as [i |] eqn:E; [| now elim I].
  destruct o as [| [k0 v0] o]; [reflexivity |]. cbn [insert_index].
  specialize (B k0 (or_introl eq_refl)). unfold key_before in B.
  rewrite E in B. destruct (array_index k0) as [j |]; [| reflexivity].
  apply Z.ltb_lt in B.
  destruct (Z.ltb_spec j i); [lia | reflexivity].
Qed.
End Placement.

Lemma keys_map_pairs {A} (f : string -> A) (l : list string) :
  keys (map (fun k => (k, f k)) l) = l.
Proof.
  unfold keys. rewrite map_map. cbn. apply map_id.
Qed.

Lemma lookup_map_pairs {A} (f : string -> A) (l : list string) (k : string) :
  lookup (map (fun k => (k, f k)) l) k
  = if includes l k then Some (f k) else None.
Proof.
  unfold includes. induction l as [| a l IH]; cbn; [reflexivity |].
  rewrite (String.eqb_sym k a).
  destruct (String.eqb_spec a k) as [-> |]; [reflexivity | exact IH].
Qed.

(** *** The sanitized record, exactly *)

(** With the value keys in own-key order and none of them [__proto__], the
    [forEach] defines them one after the other. *)
Lemma forEach_in_order (r : row) (ys pre : list string) :
  own_key_order (pre ++ ys) = true ->
  ~ In "__proto__" ys ->
  fold_left (fun entry key =>
               let value := Number_of (read_row r key) in
               assign entry key
                      (Value (if Number_isFinite (Num value) then Num value
                              else Null)))
            ys
            {| own := map (fun y => (y, Value (coerced (field r y)))) pre;
               proto := Ordinary |}
  = {| own := map (fun y => (y, Value (coerced (field r y)))) (pre ++ ys);
       proto := Ordinary |}.
Proof.
  revert pre. induction ys as [| y ys IH]; intros pre O N; cbn [fold_left].
  - rewrite app_nil_r. reflexivity.
  - cbv zeta. rewrite coerced_code.
    assert (Ny : y <> "__proto__") by (intros ->; apply N; now left).
    assert (B : forall k, In k pre -> key_before k y = true)
      by (apply (own_key_order_app pre y ys O)).
    assert (L : lookup (map (fun y => (y, Value (coerced (field r y)))) pre) y
                = None).
    { apply lookup_None_iff. rewrite keys_map_pairs. intros I.
      specialize (B y I). rewrite key_before_irrefl in B. discriminate. }
    unfold assign. apply String.eqb_neq in Ny. rewrite Ny. cbn [own proto].
    rewrite (set_last _ _ _ L) by (rewrite keys_map_pairs; exact B).
    replace (map (fun y0 => (y0, Value (coerced (field r y0)))) pre
             ++ [(y, Value (coerced (field r y)))])%list
      with (map (fun y0 => (y0, Value (coerced (field r y0)))) (pre ++ [y]))
      by (rewrite map_app; reflexivity).
    rewrite IH.
    + rewrite <- app_assoc. reflexivity.
    + rewrite <- app_assoc. exact O.
    + intros I. apply N. now right.
Qed.

(** A category key that is an array index is not a name that objects
    inherit. *)
Lemma array_index_not_inherited (k : string) :
  array_index k <> None -> inherits k = false.
Proof.
  intros I. destruct (inherits k) eqn:H; [| reflexivity]. exfalso. apply I.
  unfold inherits in H. apply orb_prop in H. destruct H as [H | H].
  - apply String.eqb_eq in H. subst. reflexivity.
  - apply includes_In in H. cbn in H.
    repeat (destruct H as [<- | H]; [reflexivity |]). destruct H.
Qed.

(** With the value keys in own-key order after a category key that is an
    array index, and none of them [__proto__], the sanitized record of an
    object row is an ordinary object listing the category first. *)
Lemma entry_of_category_first (cs : structure) (o : record) :
  own_key_order (yKeys cs) = true ->
  (forall y, In y (yKeys cs) -> key_before (xKey cs) y = true) ->
  array_index (xKey cs) <> None ->
  ~ In "__proto__" (yKeys cs) ->
  entry_of cs (RObj o)
  = {| own := (xKey cs, Value (get o (xKey cs)))
              :: map (fun y => (y, Value (coerced (get o y)))) (yKeys cs);
       proto := Ordinary |}
  /\ flat (entry_of cs (RObj o)) = Some (category_first cs o).
Proof.
  intros O B I N.
  assert (E : entry_of cs (RObj o)
              = {| own := (xKey cs, Value (get o (xKey cs)))
                          :: map (fun y => (y, Value (coerced (get o y))))
                                 (yKeys cs);
                   proto := Ordinary |}).
  { unfold entry_of.
    pose proof (forEach_in_order (RObj o) (yKeys cs) [] O N) as F.
    cbn [app map field] in F. unfold fresh. rewrite F.
    assert (Nx : xKey cs <> "__proto__") by (intros E; rewrite E in I; now apply I).
    assert (R : read_row (RObj o) (xKey cs) = Value (get o (xKey cs))).
    { cbn [read_row]. unfold read, get.
      destruct (lookup o (xKey cs)); [reflexivity |].
      rewrite (array_index_not_inherited _ I). reflexivity. }
    rewrite R. unfold assign. apply String.eqb_neq in Nx. rewrite Nx.
    cbn [own proto]. rewrite set_first; [reflexivity | | exact I |].
    - apply lookup_None_iff. rewrite keys_map_pairs. intros Hin.
      specialize (B _ Hin). rewrite key_before_irrefl in B. discriminate.
    - rewrite keys_map_pairs. exact B. }
  split; [exact E |]. rewrite E. unfold flat, category_first. cbn [proto own flat_cells].
  assert (F : forall l,
             flat_cells (map (fun y => (y, Value (coerced (get o y)))) l)
             = Some (map (fun y => (y, coerced (get o y))) l)).
  { induction l as [| a l IH]; cbn [map flat_cells]; [| rewrite IH];
      reflexivity. }
  rewrite F. reflexivity.
Qed.

(** What an inferred shape says about the rows it was inferred from. *)
Lemma chartStructure_sample (d : data) (cs : structure) :
  chartStructure d = Some cs ->
  exists rows sample rest,
    d = DArr rows
    /\ objects rows = sample :: rest
    /\ category_key sample = Some (xKey cs)
    /\ value_keys sample (xKey cs) = yKeys cs
    /\ yKeys cs <> []
    /\ xKey cs <> "".
Proof.
  intros H. apply chartStructure_Some in H. destruct H as [H X].
  destruct d as [p | o | rows]; try discriminate H. unfold shape in H.
  destruct (objects rows) as [| sample rest] eqn:O; [discriminate |].
  destruct (category_key sample) as [x |] eqn:K; [| discriminate].
  destruct (value_keys sample x) as [| y ys] eqn:V; [discriminate |].
  injection H as <-. cbn [xKey yKeys] in *.
  exists rows, sample, rest. repeat split; try assumption. discriminate.
Qed.

Lemma objects_map_RObj (rs : list record) : objects (map RObj rs) = rs.
Proof. induction rs as [| r rs IH]; cbn; [| rewrite IH]; reflexivity. Qed.

Lemma flat_records_map {A} (f : A -> entry) (g : A -> record) (l : list A) :
  (forall a, flat (f a) = Some (g a)) ->
  flat_records (map f l) = Some (map g l).
Proof.
  intros H. induction l as [| a l IH]; cbn [map flat_records];
    [| rewrite H, IH]; reflexivity.
Qed.

Lemma filter_all {A} (f : A -> bool) (l : list A) :
  (forall a, In a l -> f a = true) -> filter f l = l.
Proof.
  induction l as [| a l IH]; intros H; cbn [filter]; [reflexivity |].
  rewrite (H a (or_introl eq_refl)), IH; [reflexivity |].
  intros b I. apply H. now right.
Qed.

Lemma coerced_finite (p : prim) :
  is_finite_number p = true -> coerced p = p.
Proof.
  destruct p as [| |b|n|t]; try discriminate. unfold coerced. cbn.
  destruct n; try discriminate; reflexivity.
Qed.

Lemma get_category_first_category (cs : structure) (o : record) :
  get (category_first cs o) (xKey cs) = get o (xKey cs).
Proof.
  unfold get, category_first. cbn [lookup]. rewrite String.eqb_refl.
  reflexivity.
Qed.

Lemma get_category_first_value (cs : structure) (o : record) (y : string) :
  In y (yKeys cs) -> y <> xKey cs ->
  get (category_first cs o) y = coerced (get o y).
Proof.
  intros I N. unfold get at 1. unfold category_first. cbn [lookup].
  assert (E : (xKey cs =? y) = false) by (apply String.eqb_neq; congruence).
  rewrite E, (lookup_map_pairs (fun y => coerced (get o y))).
  apply includes_In in I. rewrite I. reflexivity.
Qed.

Lemma keys_category_first (cs : structure) (o : record) :
  keys (category_first cs o) = xKey cs :: yKeys cs.
Proof.
  unfold category_first. cbn [keys map fst].
  change (map fst (map (fun y => (y, coerced (get o y))) (yKeys cs)))
    with (keys (map (fun y => (y, coerced (get o y))) (yKeys cs))).
  rewrite keys_map_pairs. reflexivity.
Qed.

(** The shape inferred from rows whose first lists the category first. *)
Lemma chartStructure_category_first
  (cs : structure) (sample : record) (rs : list record) :
  category_key sample = Some (xKey cs) ->
  value_keys sample (xKey cs) = yKeys cs ->
  yKeys cs <> [] ->
  xKey cs <> "" ->
  chartStructure (resubmit (category_first cs sample :: rs)) = Some cs.
Proof.
  intros K V N X.
  assert (A : forall y, In y (yKeys cs) ->
                y <> xKey cs /\ is_finite_number (get sample y) = true).
  { intros y I. rewrite <- V in I. apply filter_In in I.
    destruct I as [_ B]. apply andb_prop in B. destruct B as [B1 B2].
    split; [| exact B2]. intros ->. rewrite String.eqb_refl in B1.
    discriminate. }
  rewrite chartStructure_shape. unfold resubmit, shape.
  rewrite objects_map_RObj. cbn [map objects].
  assert (Kc : category_key (category_first cs sample) = Some (xKey cs)).
  { unfold category_key. rewrite keys_category_first. cbn [find].
    rewrite (get_category_first_category cs sample).
    apply find_some in K. destruct K as [_ K]. cbv beta in K.
    rewrite K. reflexivity. }
  rewrite Kc.
  assert (Vc : value_keys (category_first cs sample) (xKey cs) = yKeys cs).
  { unfold value_keys. rewrite keys_category_first. cbn [filter].
    rewrite String.eqb_refl. cbn [negb andb]. apply filter_all.
    intros y I. destruct (A y I) as [Ny F].
    rewrite (get_category_first_value cs sample y I Ny).
    apply String.eqb_neq in Ny. rewrite Ny. cbn [negb andb].
    rewrite (coerced_finite _ F). exact F. }
  rewrite Vc. destruct cs as [x ys]. cbn [xKey yKeys] in *.
  destruct ys as [| y ys]; [now elim N |]. cbn [xKey].
  apply String.eqb_neq in X. rewrite X. reflexivity.
Qed.

(** C2, as the specification has it, fails on the specification's own
    sample: a sanitized record lists its value keys before its category
    key, so inference on the sanitized output takes "value" for the category
    key, finds no value key left, and yields no chart; the second
    sanitization is empty. *)
Lemma reinference_counterexample :
  chartStructure name_value_rows = Some {| xKey := "name"; yKeys := ["value"] |}
  /\ flat_records (sanitized name_value_rows) = Some name_value_sanitized
  /\ map keys name_value_sanitized = [["value"; "name"]; ["value"; "name"]]
  /\ chartStructure (resubmit name_value_sanitized) = None
  /\ chartStructure (resubmit name_value_sanitized)
     <> chartStructure name_value_rows
  /\ sanitized (resubmit name_value_sanitized) = []
  /\ sanitized (resubmit name_value_sanitized) <> sanitized name_value_rows.
Proof. repeat split; try reflexivity; discriminate. Qed.

(** C2, amended. For every input on which a shape is inferred, whose
    sample row lists its keys in own-key order (as every parsed object
    does), whose category key is an array index and none of whose value
    keys is [__proto__], inference on the sanitized output yields the same
    categoryKey and the same valueKeys, and the second sanitization yields,
    record by record, the same keys, the same category value and the same
    value-key entries, except that an entry already coerced to null becomes
    0. *)
Theorem resanitizing_index_category
  (rows : list row) (cs : structure) (sample : record) (rest : list record) :
  chartStructure (DArr rows) = Some cs ->
  objects rows = sample :: rest ->
  own_key_order (keys sample) = true ->
  array_index (xKey cs) <> None ->
  ~ In "__proto__" (yKeys cs) ->
  exists rs rs',
    flat_records (sanitized (DArr rows)) = Some rs
    /\ chartStructure (resubmit rs) = Some cs
    /\ flat_records (sanitized (resubmit rs)) = Some rs'
    /\ Forall2 (same_but_null cs) rs rs'.
Proof.
  intros H O W I P.
  destruct (chartStructure_sample _ _ H)
    as (rows' & sample' & rest' & D & O' & K & V & N & X).
  injection D as <-. rewrite O in O'. injection O' as <- <-.
  assert (A : forall y, In y (yKeys cs) -> y <> xKey cs).
  { intros y Hy. rewrite <- V in Hy. apply filter_In in Hy.
    destruct Hy as [_ B]. apply andb_prop in B. destruct B as [B _].
    intros ->. rewrite String.eqb_refl in B. discriminate. }
  assert (Oy : own_key_order (yKeys cs) = true).
  { rewrite <- V. apply own_key_order_filter, W. }
  assert (B : forall y, In y (yKeys cs) -> key_before (xKey cs) y = true).
  { rewrite <- V. unfold value_keys.
    apply (found_before_filtered
             (fun key => is_string_or_number (get sample key)) _ _ _ W K).
    intros k Q. apply andb_prop in Q. destruct Q as [Q1 Q2]. split.
    - destruct (get sample k); try discriminate Q2; reflexivity.
    - intros ->. rewrite String.eqb_refl in Q1. discriminate. }
  assert (F : forall o, flat (entry_of cs (RObj o)) = Some (category_first cs o)).
  { intros o. apply (entry_of_category_first cs o Oy B I P). }
  exists (map (category_first cs) (sample :: rest)),
    (map (category_first cs) (map (category_first cs) (sample :: rest))).
  assert (R : chartStructure
                (resubmit (map (category_first cs) (sample :: rest)))
              = Some cs).
  { cbn [map]. apply chartStructure_category_first; assumption. }
  split; [| split; [exact R | split]].
  - rewrite (sanitized_rows rows cs H), O. apply flat_records_map, F.
  - unfold resubmit in *. rewrite (sanitized_rows _ cs R), objects_map_RObj.
    apply flat_records_map, F.
  - apply Forall2_map_right. intros e He. apply in_map_iff in He.
    destruct He as (o & <- & _). split; [| split].
    + apply get_category_first_category.
    + intros y Hy. rewrite !(get_category_first_value cs _ y Hy (A y Hy)).
      apply coerced_twice.
    + rewrite !keys_category_first. reflexivity.
Qed.

Lemma resanitizing_index_category_witness :
  exists rs rs',
    flat_records (sanitized indexed_rows) = Some rs
    /\ chartStructure (resubmit rs) = Some {| xKey := "1"; yKeys := ["2"] |}
    /\ flat_records (sanitized (resubmit rs)) = Some rs'
    /\ Forall2 (same_but_null {| xKey := "1"; yKeys := ["2"] |}) rs rs'.
Proof.
  apply (resanitizing_index_category _ {| xKey := "1"; yKeys := ["2"] |}
           [("1", Str "A"); ("2", Num (of_Z 5))]
           [[("1", Str "B"); ("2", Str "oops")]]).
  - reflexivity.
  - reflexivity.
  - reflexivity.
  - discriminate.
  - intros [H | []]. discriminate H.
Defined.

(** *** Why the category key has to be an array index *)

Lemma flat_cells_keys (cells : list (string * cell)) (r : record) :
  flat_cells cells = Some r -> keys r = keys cells.
Proof.
  revert r. induction cells as [| [k [p |]] cells IH]; intros r F;
    cbn [flat_cells] in F; try discriminate F.
  - injection F as <-. reflexivity.
  - destruct (flat_cells cells) as [r' |]; [| discriminate F].
    injection F as <-. cbn. f_equal. apply (IH r' eq_refl).
Qed.

Lemma flat_cells_lookup (cells : list (string * cell)) (r : record)
      (k : string) (p : prim) :
  flat_cells cells = Some r ->
  lookup cells k = Some (Value p) -> lookup r k = Some p.
Proof.
  revert r. induction cells as [| [k0 [p0 |]] cells IH]; intros r F L;
    cbn [flat_cells] in F; try discriminate F; [discriminate L |].
  destruct (flat_cells cells) as [r' |]; [| discriminate F].
  injection F as <-. cbn [lookup] in *.
  destruct (k0 =? k); [congruence | exact (IH r' eq_refl L)].
Qed.

(** A chain cut off stays cut off. *)
Lemma proto_assign_Detached (o : object) (k : string) (v : cell) :
  proto o = Detached -> proto (assign o k v) = Detached.
Proof.
  intros B. unfold assign. rewrite B.
  destruct (k =? "__proto__"); [| reflexivity].
  destruct (lookup (own o) k); reflexivity.
Qed.

(** An object whose chain is intact has no own [__proto__]. *)
Lemma assign_intact (o : object) (k : string) (v : cell) :
  (proto o = Ordinary -> lookup (own o) "__proto__" = None) ->
  proto (assign o k v) = Ordinary ->
  lookup (own (assign o k v)) "__proto__" = None.
Proof.
  intros I P. destruct (proto o) eqn:E.
  - specialize (I eq_refl).
    destruct (String.eqb_spec k "__proto__") as [-> | N].
    + unfold assign in *. rewrite String.eqb_refl, I, E in *.
      destruct v as [[| |b|n|t] |]; cbn [own proto] in *;
        first [exact I | discriminate P].
    + rewrite lookup_assign_other by exact N. exact I.
  - rewrite (proto_assign_Detached _ _ _ E) in P. discriminate P.
Qed.

Lemma forEach_intact (r : row) (ys : list string) (entry : object) :
  (proto entry = Ordinary -> lookup (own entry) "__proto__" = None) ->
  proto
    (fold_left (fun entry key =>
                  let value := Number_of (read_row r key) in
                  assign entry key
                         (Value (if Number_isFinite (Num value)
                                 then Num value else Null)))
               ys entry) = Ordinary ->
  lookup
    (own
       (fold_left (fun entry key =>
                     let value := Number_of (read_row r key) in
                     assign entry key
                            (Value (if Number_isFinite (Num value)
                                    then Num value else Null)))
                  ys entry)) "__proto__" = None.
Proof.
  revert entry. induction ys as [| y ys IH]; intros entry I; cbn [fold_left].
  - exact I.
  - apply IH. cbv zeta. apply assign_intact. exact I.
Qed.

Lemma find_last {A} (P : A -> bool) (pre : list A) (x : A) :
  find P (pre ++ [x]) = Some x -> ~ In x pre ->
  forall a, In a pre -> P a = false.
Proof.
  induction pre as [| b pre IH]; intros F N a I; [destruct I |].
  cbn [app find] in F. destruct (P b) eqn:Pb.
  - injection F as ->. exfalso. apply N. now left.
  - destruct I as [<- | I]; [exact Pb |].
    apply (IH F); [intros H; apply N; now right | exact I].
Qed.

(** With any other category key, inference on the sanitized output does not
    give the shape back: the category key is defined after the value keys,
    or, for [__proto__], not at all. *)
Lemma reinference_needs_index_category
  (rows : list row) (cs : structure) (rs : list record) :
  chartStructure (DArr rows) = Some cs ->
  flat_records (sanitized (DArr rows)) = Some rs ->
  array_index (xKey cs) = None ->
  chartStructure (resubmit rs) <> Some cs.
Proof.
  intros H F I R.
  destruct (chartStructure_sample _ _ H)
    as (rows' & sample & rest & D & O & K & V & N & X).
  injection D as <-.
  assert (Hx : ~ In (xKey cs) (yKeys cs)).
  { apply chartStructure_Some in H. destruct H as [H _].
    exact (shape_keys_apart _ _ H). }
  rewrite (sanitized_rows rows cs H), O in F. cbn [map flat_records] in F.
  destruct (flat (entry_of cs (RObj sample))) as [r1 |] eqn:F1;
    [| discriminate F].
  destruct (flat_records _) as [rs' |]; [| discriminate F].
  injection F as <-.
  destruct (chartStructure_sample _ _ R)
    as (rows2 & sample2 & rest2 & D2 & O2 & K2 & V2 & _ & _).
  unfold resubmit in D2. injection D2 as <-.
  cbn [map objects] in O2. rewrite objects_map_RObj in O2.
  injection O2 as <- <-.
  unfold flat in F1.
  destruct (proto (entry_of cs (RObj sample))) eqn:P1; [| discriminate F1].
  pose proof (flat_cells_keys _ _ F1) as Kr.
  unfold category_key in K2. rewrite Kr in K2.
  set (E := fold_left
              (fun entry key =>
                 let value := Number_of (read_row (RObj sample) key) in
                 assign entry key
                        (Value (if Number_isFinite (Num value) then Num value
                                else Null)))
              (yKeys cs) fresh) in *.
  assert (PE : proto E = Ordinary).
  { destruct (proto E) eqn:B; [reflexivity |].
    unfold entry_of in P1. fold E in P1.
    rewrite (proto_assign_Detached _ _ _ B) in P1. discriminate P1. }
  assert (LE : lookup (own E) "__proto__" = None).
  { apply (forEach_intact (RObj sample) (yKeys cs) fresh);
      [reflexivity | exact PE]. }
  destruct (String.eqb_spec (xKey cs) "__proto__") as [Ex | Nx].
  - (* the category key is [__proto__]: the record has no such key *)
    apply find_some in K2. destruct K2 as [Hin _].
    apply In_keys_lookup in Hin. apply Hin.
    unfold entry_of. fold E. unfold assign.
    rewrite Ex, String.eqb_refl, LE, PE.
    destruct (read_row (RObj sample) "__proto__") as [[| |b|n|t] |];
      exact LE.
  - (* any other key that is no array index is defined last *)
    assert (Lx : lookup (own E) (xKey cs) = None).
    { unfold E. rewrite (lookup_forEach _ _ _ _ Nx).
      destruct (includes (yKeys cs) (xKey cs)) eqn:C; [| reflexivity].
      apply includes_In in C. contradiction. }
    assert (Ow : own (entry_of cs (RObj sample))
                 = (own E ++ [(xKey cs, read_row (RObj sample) (xKey cs))])%list).
    { unfold entry_of. fold E. unfold assign.
      apply String.eqb_neq in Nx. rewrite Nx. cbn [own].
      unfold set. rewrite Lx, I. reflexivity. }
    rewrite Ow in K2. unfold keys in K2. rewrite map_app in K2.
    cbn [map fst] in K2.
    assert (Ey : exists y, In y (yKeys cs)).
    { destruct (yKeys cs) as [| y ys]; [now elim N |]. exists y. now left. }
    destruct Ey as [y Hy].
    assert (Ny : y <> xKey cs) by (intros ->; contradiction).
    assert (Iy : In y (keys r1)).
    { assert (Q : In y (value_keys r1 (xKey cs))) by (rewrite V2; exact Hy).
      apply filter_In in Q. tauto. }
    rewrite Kr, Ow in Iy. unfold keys in Iy. rewrite map_app in Iy.
    apply in_app_or in Iy. destruct Iy as [Iy | [Iy | []]];
      [| cbn in Iy; congruence].
    assert (Py : y <> "__proto__").
    { intros ->. apply In_keys_lookup in Iy. contradiction. }
    assert (Fy : is_finite_number (get sample y) = true).
    { pose proof Hy as Q. rewrite <- V in Q. apply filter_In in Q.
      destruct Q as [_ B]. apply andb_prop in B. tauto. }
    assert (Ly : lookup (own E) y = Some (Value (get sample y))).
    { unfold E. rewrite (lookup_forEach _ _ _ _ Py).
      apply includes_In in Hy. rewrite Hy. cbn [field].
      rewrite (coerced_finite _ Fy). reflexivity. }
    assert (Gy : get r1 y = get sample y).
    { unfold get at 1.
      rewrite (flat_cells_lookup _ _ y (get sample y) F1); [reflexivity |].
      rewrite Ow. rewrite <- Ly.
      assert (G : forall (o : list (string * cell)) k v k',
                 k <> k' -> lookup (o ++ [(k, v)])%list k' = lookup o k').
      { intros o k v k' D. induction o as [| [a c] o IH]; cbn.
        - apply String.eqb_neq in D. rewrite D. reflexivity.
        - destruct (a =? k'); [reflexivity | exact IH]. }
      apply G. congruence. }
    assert (Fl : is_string_or_number (get r1 y) = false).
    { apply (find_last (fun key => is_string_or_number (get r1 key))
               (map fst (own E)) (xKey cs) K2); [| exact Iy].
      intros Hin. apply In_keys_lookup in Hin. contradiction. }
    rewrite Gy in Fl. destruct (get sample y); discriminate.
Qed.

(** Nor does it with a value key named [__proto__]: no ordinary record has
    that key. *)
Lemma reinference_needs_no_proto_value_key
  (rows : list row) (cs : structure) (rs : list record) :
  chartStructure (DArr rows) = Some cs ->
  flat_records (sanitized (DArr rows)) = Some rs ->
  In "__proto__" (yKeys cs) ->
  chartStructure (resubmit rs) <> Some cs.
Proof.
  intros H F I R.
  destruct (chartStructure_sample _ _ H)
    as (rows' & sample & rest & D & O & _).
  injection D as <-.
  rewrite (sanitized_rows rows cs H), O in F. cbn [map flat_records] in F.
  destruct (flat (entry_of cs (RObj sample))) as [r1 |] eqn:F1;
    [| discriminate F].
  destruct (flat_records _) as [rs' |]; [| discriminate F].
  injection F as <-.
  destruct (chartStructure_sample _ _ R)
    as (rows2 & sample2 & rest2 & D2 & O2 & _ & V2 & _ & _).
  unfold resubmit in D2. injection D2 as <-.
  cbn [map objects] in O2. rewrite objects_map_RObj in O2.
  injection O2 as <- <-.
  unfold flat in F1.
  destruct (proto (entry_of cs (RObj sample))) eqn:P1; [| discriminate F1].
  assert (Q : In "__proto__" (keys r1)).
  { rewrite <- V2 in I. apply filter_In in I. tauto. }
  rewrite (flat_cells_keys _ _ F1) in Q. apply In_keys_lookup in Q. apply Q.
  unfold entry_of in *. apply assign_intact; [| exact P1].
  apply (forEach_intact (RObj sample) (yKeys cs) fresh); reflexivity.
Qed.
(* ===================================================================== *)
(** ** The submit handler: further properties *)
(* ===================================================================== *)

Import Display EventLoop.

Lemma truthy_or_else (v : JS.value) (s : string) :
  s <> "" -> truthy (or_else v (str s)) = true.
Proof.
  intros H. unfold or_else. destruct (truthy v) eqn:E; [exact E |].
  cbn. destruct s; [congruence | reflexivity].
Qed.

Lemma coalesce_defined (v : JS.value) : coalesce v null <> Prim Undefined.
Proof. destruct v as [[| |b|n|t]|items|props]; discriminate. Qed.

(** What a path tells about the body it carries. *)
Lemma path_of_Success (o : option response) (data : JS.value) :
  path_of o = Success data -> truthy (property data "results") = true.
Proof.
  unfold path_of. destruct o as [[[d|]]|]; try discriminate.
  destruct d as [[| |b|n|t]|items|props]; try discriminate;
    intros H; cbn [json] in H; cbv iota in H;
    match type of H with
    | (if truthy ?r then _ else _) = _ =>
        destruct (truthy r) eqn:E;
        [injection H as <-; exact E | discriminate H]
    end.
Qed.

(** The state a path leaves shows a chart or an error, not both. *)
Lemma settle_state_kinds (s : UIState) (o : option response) :
  (exists data,
     path_of o = Success data
     /\ error (settle_state s (path_of o)) = error s
     /\ truthy (chartData (settle_state s (path_of o))) = true
     /\ latency (settle_state s (path_of o)) <> Prim Undefined)
  \/ (truthy (error (settle_state s (path_of o))) = true
      /\ chartData (settle_state s (path_of o)) = null
      /\ latency (settle_state s (path_of o)) = null
      /\ (sqlOutput (settle_state s (path_of o)) = str ""
          \/ sqlOutput (settle_state s (path_of o))
             = str "Error generating SQL query")).
Proof.
  destruct (path_of o) as [data | data |] eqn:P.
  - left. exists data. repeat split.
    + apply (path_of_Success _ _ P).
    + apply coalesce_defined.
  - right. cbn. repeat split.
    + apply truthy_or_else. discriminate.
    + now right.
  - right. cbn. repeat split. now left.
Qed.

Lemma final_is_settle_of_loading (s : UIState) (p : path) :
  final_state s p = settle_state (loading_state s) p.
Proof. destruct p; reflexivity. Qed.

(** X1. A submission of a question that is not blank calls [fetch]
    exactly once, after [setError("")] and [setIsLoading(true)] and before
    any other setter, and sends the question as typed, not trimmed. *)
Theorem one_request_as_typed (net : network) (s : UIState) :
  trim (query s) <> "" ->
  network_calls (trace (snd (submit net s))) = 1
  /\ firstn 3 (trace (snd (submit net s)))
     = [SetError (str ""); SetIsLoading true;
        Fetch {| url := "http://localhost:8000/process_query/";
                 method := "POST";
                 headers := [("Content-Type", "application/json")];
                 body := Obj [("question", str (query s))] |}].
Proof.
  intros H. rewrite (submit_runs net s H). cbn [snd trace]. split.
  - destruct (exit_path net (query s)); reflexivity.
  - reflexivity.
Qed.

Lemma one_request_as_typed_witness :
  trim (query (asked "  top regions ")) <> ""
  /\ network_calls
       (trace (snd (submit (answering no_such_table) (asked "  top regions "))))
     = 1.
Proof.
  assert (H : trim (query (asked "  top regions ")) <> "")
    by (cbn; discriminate).
  split; [exact H |].
  apply (one_request_as_typed (answering no_such_table) _ H).
Defined.

(** X2. A response whose body is the JSON value [null] ends in the catch
    branch: reading [data.results] throws, the handler catches it, and the
    state is that of a connection problem. *)
Theorem null_body_is_caught (net : network) (s : UIState) (resp : response) :
  trim (query s) <> "" ->
  net (process_query (query s)) = Some resp ->
  json resp = Some (Prim Null) ->
  fst (submit net s) = inr tt
  /\ ui (snd (submit net s))
     = {| query := query s;
          sqlOutput := str "";
          latency := null;
          chartData := null;
          isLoading := false;
          error := str "There was a problem connecting to the server." |}.
Proof.
  intros H Hnet Hjson. rewrite (submit_runs net s H).
  unfold exit_path. rewrite Hnet, Hjson. split; reflexivity.
Qed.

Lemma null_body_is_caught_witness :
  error (ui (snd (submit (answering null) (asked "top regions"))))
  = str "There was a problem connecting to the server.".
Proof.
  destruct (null_body_is_caught (answering null) (asked "top regions")
              {| json := Some null |}) as [_ E].
  - cbn. discriminate.
  - reflexivity.
  - reflexivity.
  - rewrite E. reflexivity.
Defined.

(** X3. A body that is a number, a string, a boolean or an array has
    neither [results] nor [detail]: the handler reports "Unable to generate
    SQL query." and shows "Error generating SQL query" as the sql. *)
Theorem non_object_body_reported
  (net : network) (s : UIState) (resp : response) (data : JS.value) :
  trim (query s) <> "" ->
  net (process_query (query s)) = Some resp ->
  json resp = Some data ->
  (exists b, data = Prim (Boolean b)) \/ (exists n, data = Prim (Num n))
  \/ (exists t, data = Prim (Str t)) \/ (exists items, data = Arr items) ->
  ui (snd (submit net s))
  = {| query := query s;
       sqlOutput := str "Error generating SQL query";
       latency := null;
       chartData := null;
       isLoading := false;
       error := str "Unable to generate SQL query." |}.
Proof.
  intros H Hnet Hjson Hd. rewrite (submit_runs net s H).
  unfold exit_path. rewrite Hnet, Hjson.
  destruct Hd as [[b ->] | [[n ->] | [[t ->] | [items ->]]]]; reflexivity.
Qed.

Lemma non_object_body_reported_witness :
  error (ui (snd (submit (answering (Arr [num 1; num 2]))
                         (asked "top regions"))))
  = str "Unable to generate SQL query.".
Proof.
  rewrite (non_object_body_reported (answering (Arr [num 1; num 2]))
             (asked "top regions") {| json := Some (Arr [num 1; num 2]) |}
             (Arr [num 1; num 2])).
  - reflexivity.
  - cbn. discriminate.
  - reflexivity.
  - reflexivity.
  - right. right. right. exists [num 1; num 2]. reflexivity.
Defined.

(** X4. Whatever the network does and whatever the state, the handler
    lets no exception escape, neither a rejected [fetch] or [json()] nor the
    TypeError of a [null] body, and it never changes the question. *)
Theorem submit_returns_and_keeps_query (net : network) (s : UIState) :
  fst (submit net s) = inr tt
  /\ query (ui (snd (submit net s))) = query s.
Proof.
  destruct (string_dec (trim (query s)) "") as [B | N].
  - rewrite (submit_blank net s B). split; reflexivity.
  - rewrite (submit_runs net s N). split; [reflexivity |].
    cbn [snd ui]. destruct (exit_path net (query s)); reflexivity.
Qed.

(** X5. After a submission of a question that is not blank the state holds
    either chart data and no error, or an error and neither chart data nor
    latency: the error is empty and the chart data truthy, or the error is
    truthy, chart data and latency are null and the sql is empty or the
    text "Error generating SQL query". *)
Theorem chart_or_error (net : network) (s : UIState) :
  trim (query s) <> "" ->
  (error (ui (snd (submit net s))) = str ""
   /\ truthy (chartData (ui (snd (submit net s)))) = true)
  \/ (truthy (error (ui (snd (submit net s)))) = true
      /\ chartData (ui (snd (submit net s))) = null
      /\ latency (ui (snd (submit net s))) = null
      /\ (sqlOutput (ui (snd (submit net s))) = str ""
          \/ sqlOutput (ui (snd (submit net s)))
             = str "Error generating SQL query")).
Proof.
  intros H. rewrite (submit_runs net s H). cbn [snd ui].
  rewrite final_is_settle_of_loading.
  destruct (settle_state_kinds (loading_state s)
              (net (process_query (query s)))) as [(data & _ & E & T & _) | F].
  - left. split; [exact E | exact T].
  - right. exact F.
Qed.

Lemma chart_or_error_witness :
  error (ui (snd (submit (answering sample_response) (asked "top regions"))))
  = str ""
  /\ truthy (error (ui (snd (submit (fun _ => None) (asked "top regions")))))
     = true.
Proof.
  assert (H : trim (query (asked "top regions")) <> "") by (cbn; discriminate).
  split.
  - destruct (chart_or_error (answering sample_response) _ H)
      as [[E _] | [T _]]; [exact E | discriminate T].
  - destruct (chart_or_error (fun _ => None) _ H)
      as [[E _] | [T _]]; [discriminate E | exact T].
Defined.

(** X6. The state a submission ends in depends on the question and the
    network only: nothing of the previous sql, latency, chart data, error or
    loading flag survives it. *)
Theorem submit_forgets_previous_results (net : network) (s s' : UIState) :
  trim (query s) <> "" ->
  query s' = query s ->
  ui (snd (submit net s')) = ui (snd (submit net s)).
Proof.
  intros H Q.
  assert (H' : trim (query s') <> "") by (rewrite Q; exact H).
  rewrite (submit_runs net s H), (submit_runs net s' H'). cbn [snd ui].
  rewrite Q. destruct (exit_path net (query s)); cbn; rewrite ?Q; reflexivity.
Qed.

Lemma submit_forgets_previous_results_witness :
  ui (snd (submit (answering no_such_table)
                  (ui (snd (submit (answering sample_response)
                                   (asked "top regions"))))))
  = ui (snd (submit (answering no_such_table) (asked "top regions"))).
Proof.
  apply (submit_forgets_previous_results (answering no_such_table)
           (asked "top regions")).
  - cbn. discriminate.
  - reflexivity.
Defined.

(* ===================================================================== *)
(** ** [App] between events: proofs *)
(* ===================================================================== *)

Lemma dispatched_blank (s : UIState) :
  trim (query s) = "" ->
  dispatched {| ui := s; trace := [] |} = (inr None, {| ui := s; trace := [] |}).
Proof.
  intros H. unfold dispatched, bind, read_query. cbn. rewrite H. reflexivity.
Qed.

Lemma dispatched_sends (s : UIState) :
  trim (query s) <> "" ->
  dispatched {| ui := s; trace := [] |}
  = (inr (Some (process_query (query s))),
     {| ui := loading_state s;
        trace := [SetError (str ""); SetIsLoading true] |}).
Proof.
  intros H. apply trim_nonempty_eqb in H.
  unfold dispatched, bind, read_query. cbn. rewrite H. reflexivity.
Qed.

Lemma settled_runs (o : option response) (s : UIState) :
  settled o {| ui := s; trace := [] |}
  = (inr tt,
     {| ui := settle_state s (path_of o);
        trace := settle_calls (path_of o) ++ [SetIsLoading false] |}).
Proof.
  unfold settled, path_of, bind, try_catch, awaited.
  destruct o as [[[data|]]|]; cbn; try reflexivity.
  destruct data as [[| |b|n|t]|items|props]; try reflexivity;
    unfold member, ret; cbv beta iota;
    destruct (truthy (property _ "results")); reflexivity.
Qed.

Lemma step_Clicked_blank (p : page) :
  isLoading (state p) = false -> trim (query (state p)) = "" ->
  step p Clicked = p.
Proof.
  intros L B. unfold step. rewrite L, (dispatched_blank _ B).
  destruct p; reflexivity.
Qed.

Lemma step_Clicked_sends (p : page) :
  isLoading (state p) = false -> trim (query (state p)) <> "" ->
  step p Clicked
  = {| state := loading_state (state p);
       pending := pending p ++ [process_query (query (state p))] |}.
Proof.
  intros L N. unfold step. rewrite L, (dispatched_sends _ N). reflexivity.
Qed.

Lemma step_Settled (p : page) (o : option response) (r : request)
      (rest : list request) :
  pending p = r :: rest ->
  step p (Settled o)
  = {| state := settle_state (state p) (path_of o); pending := rest |}.
Proof.
  intros P. unfold step. rewrite P, settled_runs. reflexivity.
Qed.

(** Closes the conjuncts of [consistent] once the fields are known. *)
Ltac consistent_fields :=
  unfold consistent; cbn [state pending List.length];
  repeat match goal with
         | |- _ /\ _ => split
         | |- _ <-> _ => split
         end;
  try discriminate;
  try (intros; cbn; first [reflexivity | discriminate | congruence]);
  try lia;
  try (intros H; now elim H);
  try (now left); try (now right);
  try assumption.

Lemma consistent_mounted : consistent mounted.
Proof. unfold mounted. consistent_fields. Qed.

Lemma consistent_setQuery (p : page) (text : string) :
  consistent p ->
  consistent {| state := setQuery text (state p); pending := pending p |}.
Proof. intros C. exact C. Qed.

Lemma consistent_step (p : page) (e : event) :
  consistent p -> consistent (step p e).
Proof.
  intros C. destruct e as [text | i | | o].
  - apply consistent_setQuery. exact C.
  - cbn. destruct (nth_error suggestions i);
      [apply consistent_setQuery |]; exact C.
  - destruct (isLoading (state p)) eqn:L; [cbn; rewrite L; exact C |].
    destruct (string_dec (trim (query (state p))) "") as [B | N].
    + rewrite (step_Clicked_blank p L B). exact C.
    + rewrite (step_Clicked_sends p L N).
      destruct C as (C1 & C2 & C3 & C4 & C5 & C6 & C7).
      assert (P : pending p = []).
      { destruct (pending p) as [| r rest] eqn:P; [reflexivity |].
        assert (T : isLoading (state p) = true) by (apply C1; discriminate).
        congruence. }
      rewrite P. unfold loading_state. cbn [app]. consistent_fields.
  - destruct (pending p) as [| r rest] eqn:P.
    + cbn. rewrite P. exact C.
    + rewrite (step_Settled p o r rest P).
      destruct C as (C1 & C2 & C3 & C4 & C5 & C6 & C7).
      assert (R : rest = []).
      { rewrite P in C2. destruct rest; [reflexivity | cbn in C2; lia]. }
      assert (E : error (state p) = str "").
      { apply C3, C1. rewrite P. discriminate. }
      subst rest.
      destruct (settle_state_kinds (state p) o)
        as [(data & Pd & Ee & Tc & Ld) | (Te & Cn & Ln & _)].
      * unfold consistent. cbn [state pending List.length].
        rewrite Ee, E.
        assert (L : isLoading (settle_state (state p) (path_of o)) = false)
          by reflexivity.
        rewrite L. consistent_fields.
      * unfold consistent. cbn [state pending List.length].
        rewrite Cn, Ln.
        assert (L : isLoading (settle_state (state p) (path_of o)) = false)
          by reflexivity.
        rewrite L. consistent_fields.
Qed.

Lemma consistent_run (events : list event) (p : page) :
  consistent p -> consistent (run p events).
Proof.
  revert p. induction events as [| e events IH]; intros p C; cbn.
  - exact C.
  - apply IH, consistent_step, C.
Qed.

(** X7. A click on the enabled button followed by the settlement of the
    request it sent leaves the state that [handleQuery], run in one piece
    against a network giving that outcome, leaves; nothing is pending then. *)
Theorem click_then_settle_is_submit (net : network) (s : UIState) :
  isLoading s = false ->
  trim (query s) <> "" ->
  run {| state := s; pending := [] |}
      [Clicked; Settled (net (process_query (query s)))]
  = {| state := ui (snd (submit net s)); pending := [] |}.
Proof.
  intros L N. cbn [run fold_left].
  rewrite (step_Clicked_sends {| state := s; pending := [] |} L N).
  cbn [state pending app].
  rewrite (step_Settled
             {| state := loading_state s;
                pending := [process_query (query s)] |}
             _ (process_query (query s)) [] eq_refl).
  cbn [state].
  rewrite (submit_runs net s N). cbn [snd ui].
  rewrite final_is_settle_of_loading. reflexivity.
Qed.

Lemma click_then_settle_is_submit_witness :
  run {| state := asked "top regions"; pending := [] |}
      [Clicked; Settled (Some {| json := Some no_such_table |})]
  = {| state := ui (snd (submit (answering no_such_table)
                                (asked "top regions")));
       pending := [] |}.
Proof.
  apply (click_then_settle_is_submit (answering no_such_table)
           (asked "top regions")).
  - reflexivity.
  - cbn. discriminate.
Defined.

(** X8. Whatever the user types and clicks and however the requests
    settle, the page is loading exactly while a request is pending, and at
    most one request is pending at a time: the button is disabled while
    loading. *)
Theorem loading_iff_request_pending (events : list event) :
  (isLoading (state (run mounted events)) = true
   <-> pending (run mounted events) <> [])
  /\ (List.length (pending (run mounted events)) <= 1)%nat.
Proof.
  destruct (consistent_run events mounted consistent_mounted)
    as (C1 & C2 & _).
  split; assumption.
Qed.

(** X9. In every state the page can reach, a truthy error comes with
    neither chart data nor latency; the error is the empty string or truthy,
    so the error box shows a message or nothing; the latency is never
    [undefined]; the chart data is null or truthy. *)
Theorem never_error_with_chart (events : list event) :
  (truthy (error (state (run mounted events))) = true ->
   chartData (state (run mounted events)) = null
   /\ latency (state (run mounted events)) = null)
  /\ (errorBox (state (run mounted events)) = Bare (str "")
      \/ exists v, errorBox (state (run mounted events)) = Box v)
  /\ latency (state (run mounted events)) <> Prim Undefined
  /\ (chartData (state (run mounted events)) = null
      \/ truthy (chartData (state (run mounted events))) = true).
Proof.
  destruct (consistent_run events mounted consistent_mounted)
    as (_ & _ & _ & C4 & C5 & C6 & C7).
  repeat split; try assumption.
  - apply C4. assumption.
  - apply C4. assumption.
  - unfold errorBox. destruct C5 as [E | T].
    + left. rewrite E. reflexivity.
    + right. rewrite T. eauto.
Qed.

(** X10. Typing while a request is pending does not disturb it: the
    settlement neither reads nor writes the question, so typing before the
    settlement and after it give the same page. *)
Theorem typing_commutes_with_settlement
  (p : page) (text : string) (o : option response) :
  run p [Typed text; Settled o] = run p [Settled o; Typed text].
Proof.
  destruct p as [s [| r rest]]; [reflexivity |].
  cbn [run fold_left step state pending]. rewrite !settled_runs.
  cbn [snd ui]. destruct (path_of o); reflexivity.
Qed.

(** X11. A click that sends a request clears the error and sets the
    loading flag, and nothing else: until the request settles the page keeps
    the sql, the latency and the chart data of the previous submission. *)
Theorem dispatch_keeps_previous_results (p : page) :
  isLoading (state p) = false ->
  trim (query (state p)) <> "" ->
  state (step p Clicked)
  = {| query := query (state p);
       sqlOutput := sqlOutput (state p);
       latency := latency (state p);
       chartData := chartData (state p);
       isLoading := true;
       error := str "" |}
  /\ pending (step p Clicked)
     = (pending p ++ [process_query (query (state p))])%list.
Proof.
  intros L N. rewrite (step_Clicked_sends p L N). split; reflexivity.
Qed.

Lemma dispatch_keeps_previous_results_witness :
  sqlOutput
    (state (step {| state := ui (snd (submit (answering sample_response)
                                             (asked "top regions")));
                    pending := [] |} Clicked))
  = str "SELECT ...".
Proof.
  destruct (dispatch_keeps_previous_results
              {| state := ui (snd (submit (answering sample_response)
                                          (asked "top regions")));
                 pending := [] |}) as [E _].
  - reflexivity.
  - cbn. discriminate.
  - rewrite E. reflexivity.
Defined.

(** X12. Every suggestion is a question the button sends: from a page
    that is not loading, a click on a suggestion and then on the button puts
    that suggestion, as the question, in a request. *)
Theorem suggestion_is_sent (p : page) (i : nat) (suggestion : string) :
  isLoading (state p) = false ->
  nth_error suggestions i = Some suggestion ->
  run p [Suggested i; Clicked]
  = {| state := loading_state (setQuery suggestion (state p));
       pending := (pending p ++ [process_query suggestion])%list |}.
Proof.
  intros L S. cbn [run fold_left].
  assert (E : step p (Suggested i)
              = {| state := setQuery suggestion (state p);
                   pending := pending p |}).
  { cbn. rewrite S. reflexivity. }
  rewrite E. rewrite step_Clicked_sends.
  - reflexivity.
  - exact L.
  - cbn [state setQuery query].
    destruct i as [| [| [| [| i]]]]; cbn in S;
      try (injection S as <-; cbn; discriminate).
    destruct i; discriminate S.
Qed.

Lemma suggestion_is_sent_witness :
  pending (run mounted [Suggested 2; Clicked])
  = [process_query "Total orders per region for the previous year"].
Proof.
  rewrite (suggestion_is_sent mounted 2
             "Total orders per region for the previous year");
    reflexivity.
Defined.

(* ===================================================================== *)
(** ** [ChartPreview]: further properties *)
(* ===================================================================== *)

(** The sample row behind a shape, and what its value keys hold. *)
Lemma shape_is_well_formed_aux (d : data) (cs : structure) :
  chartStructure d = Some cs ->
  exists rows sample rest,
    d = DArr rows
    /\ objects rows = sample :: rest
    /\ ~ In (xKey cs) (yKeys cs)
    /\ forall y, In y (yKeys cs) -> is_finite_number (get sample y) = true.
Proof.
  intros H.
  destruct (chartStructure_sample d cs H)
    as (rows & sample & rest & -> & O & K & V & N & X).
  exists rows, sample, rest. repeat split; try assumption.
  - apply chartStructure_Some in H. destruct H as [H _].
    exact (shape_keys_apart _ _ H).
  - intros y Hy. rewrite <- V in Hy. apply filter_In in Hy.
    destruct Hy as [_ B]. apply andb_prop in B. tauto.
Qed.

Lemma bars_nth (keys : list string) (index i : nat) (key : string) :
  nth_error keys i = Some key ->
  nth_error (bars index keys) i
  = Some {| dataKey := key;
            fill := nth_error colors ((index + i) mod List.length colors) |}.
Proof.
  revert index i. induction keys as [| k keys IH]; intros index i H.
  - destruct i; discriminate.
  - destruct i as [| i]; cbn [bars nth_error] in *.
    + injection H as ->. rewrite Nat.add_0_r. reflexivity.
    + rewrite (IH (S index) i H). rewrite Nat.add_succ_r. reflexivity.
Qed.

Lemma bars_keys (keys : list string) (index : nat) :
  map dataKey (bars index keys) = keys.
Proof.
  revert index. induction keys as [| k keys IH]; intros index; cbn;
    [| rewrite IH]; reflexivity.
Qed.

(** X13. [ChartPreview] shows the placeholder exactly when no shape is
    inferred: with a shape the projection has one record for each object row
    and so at least the sample row's, and the test for an empty projection
    never decides. *)
Theorem placeholder_iff_no_shape (d : data) :
  (ChartPreview d = NoData <-> chartStructure d = None)
  /\ (forall cs, chartStructure d = Some cs ->
      ChartPreview d = BarChart (sanitized d) (xKey cs) (bars 0 (yKeys cs))
      /\ sanitized d <> []
      /\ exists rows,
           d = DArr rows
           /\ List.length (sanitized d) = List.length (objects rows)).
Proof.
  assert (S : forall cs, chartStructure d = Some cs ->
              sanitized d <> []
              /\ exists rows,
                   d = DArr rows
                   /\ List.length (sanitized d) = List.length (objects rows)).
  { intros cs H.
    destruct (chartStructure_sample d cs H)
      as (rows & sample & rest & -> & O & _).
    rewrite (sanitized_rows rows cs H), O. split; [discriminate |].
    exists rows. split; [reflexivity |]. rewrite O, length_map. reflexivity. }
  unfold ChartPreview. destruct (chartStructure d) as [cs |] eqn:H.
  - destruct (S cs eq_refl) as [N R].
    destruct (sanitized d) as [| e es] eqn:E; [now elim N |].
    cbn [List.length Nat.eqb]. split.
    + split; discriminate.
    + intros cs' Hcs. injection Hcs as <-. repeat split; assumption.
  - split; [tauto | discriminate].
Qed.

(** X14. When a chart is drawn there is one bar for each value key, in
    order, and the bar at position [i] is filled with the palette colour at
    [i mod 5]: however many series there are, no bar is left without a
    colour. *)
Theorem every_bar_has_a_colour
  (d : data) (rows : list entry) (x : string) (series : list bar) :
  ChartPreview d = BarChart rows x series ->
  (exists cs, chartStructure d = Some cs
              /\ x = xKey cs /\ map dataKey series = yKeys cs)
  /\ forall i b, nth_error series i = Some b ->
       fill b = nth_error colors (i mod 5) /\ fill b <> None.
Proof.
  unfold ChartPreview. destruct (chartStructure d) as [cs |]; [| discriminate].
  destruct (List.length (sanitized d) =? 0)%nat; [discriminate |].
  intros H. injection H as _ <- <-. split.
  - exists cs. repeat split. apply bars_keys.
  - intros i b Hb.
    assert (K : exists key, nth_error (yKeys cs) i = Some key).
    { destruct (nth_error (yKeys cs) i) as [key |] eqn:K; [eauto |].
      apply nth_error_None in K.
      assert (L : List.length (bars 0 (yKeys cs)) = List.length (yKeys cs))
        by (rewrite <- (bars_keys (yKeys cs) 0) at 2; now rewrite length_map).
      assert (N : nth_error (bars 0 (yKeys cs)) i = None)
        by (apply nth_error_None; lia).
      congruence. }
    destruct K as [key K]. rewrite (bars_nth _ 0 i key K) in Hb.
    injection Hb as <-. cbn [fill Nat.add].
    change (List.length colors) with 5. split; [reflexivity |].
    apply nth_error_Some. change (List.length colors) with 5.
    apply (Nat.mod_upper_bound i 5). discriminate.
Qed.

Lemma every_bar_has_a_colour_witness :
  exists b,
    nth_error (bars 0 ["a"; "b"; "c"; "d"; "e"; "f"]) 5 = Some b
    /\ fill b = Some "#34d399".
Proof.
  destruct (every_bar_has_a_colour
              (DArr [RObj [("k", Str "x"); ("a", Num (of_Z 1));
                           ("b", Num (of_Z 1)); ("c", Num (of_Z 1));
                           ("d", Num (of_Z 1)); ("e", Num (of_Z 1));
                           ("f", Num (of_Z 1))]])
              _ _ _ eq_refl) as [_ F].
  eexists. split; [reflexivity |].
  destruct (F 5 _ eq_refl) as [E _]. exact E.
Defined.

(** X15. An inferred shape is well formed: the category key is a field of
    the sample row holding a string or a number and is not the empty
    string; there is at least one value key; every value key is another
    field of the sample row, holding a finite number. *)
Theorem shape_is_well_formed (d : data) (cs : structure) :
  chartStructure d = Some cs ->
  exists rows sample rest,
    d = DArr rows
    /\ objects rows = sample :: rest
    /\ xKey cs <> ""
    /\ In (xKey cs) (keys sample)
    /\ is_string_or_number (get sample (xKey cs)) = true
    /\ yKeys cs <> []
    /\ forall y, In y (yKeys cs) ->
         y <> xKey cs
         /\ In y (keys sample)
         /\ is_finite_number (get sample y) = true.
Proof.
  intros H.
  destruct (chartStructure_sample d cs H)
    as (rows & sample & rest & -> & O & K & V & N & X).
  exists rows, sample, rest.
  apply find_some in K. destruct K as [Kin Kty].
  split; [reflexivity |]. split; [exact O |]. split; [exact X |].
  split; [exact Kin |]. split; [exact Kty |]. split; [exact N |].
  intros y Hy. rewrite <- V in Hy. apply filter_In in Hy.
  destruct Hy as [Hin B]. apply andb_prop in B. destruct B as [B1 B2].
  split; [| split; [exact Hin | exact B2]].
  intros ->. rewrite String.eqb_refl in B1. discriminate.
Qed.

Lemma shape_is_well_formed_witness :
  exists rows sample rest,
    name_value_rows = DArr rows /\ objects rows = sample :: rest
    /\ In "name" (keys sample).
Proof.
  destruct (shape_is_well_formed name_value_rows
              {| xKey := "name"; yKeys := ["value"] |} eq_refl)
    as (rows & sample & rest & D & O & _ & I & _).
  exists rows, sample, rest. repeat split; assumption.
Defined.

(** X16. The shape is read off the first object row alone: rows before it
    that are not objects, and all rows after it, do not change it. *)
Theorem shape_of_first_object_only
  (rows : list row) (sample : record) (rest : list record) :
  objects rows = sample :: rest ->
  chartStructure (DArr rows) = chartStructure (DArr [RObj sample]).
Proof.
  intros O. rewrite !chartStructure_shape. unfold shape. rewrite O.
  reflexivity.
Qed.

Lemma shape_of_first_object_only_witness :
  chartStructure
    (DArr [RPrim Null; RObj [("name", Str "A"); ("value", Num (of_Z 5))];
           RObj [("other", Str "B")]])
  = chartStructure (DArr [RObj [("name", Str "A"); ("value", Num (of_Z 5))]]).
Proof.
  apply (shape_of_first_object_only _ _ [[("other", Str "B")]]). reflexivity.
Defined.

Lemma in_sanitized (d : data) (cs : structure) (e : entry) :
  chartStructure d = Some cs ->
  In e (sanitized d) ->
  ~ In (xKey cs) (yKeys cs) /\ exists o, e = entry_of cs (RObj o).
Proof.
  intros H He. split.
  - apply chartStructure_Some in H. destruct H as [H _].
    exact (shape_keys_apart _ _ H).
  - destruct d as [p | o | rows]; try discriminate H.
    rewrite (sanitized_rows rows cs H) in He. apply in_map_iff in He.
    destruct He as (o & <- & _). eauto.
Qed.

(** A value key of a sanitized record, read back: what the [forEach] left
    there. *)
Lemma lookup_entry_of_value (cs : structure) (r : row) (y : string) :
  ~ In (xKey cs) (yKeys cs) ->
  In y (yKeys cs) ->
  y <> "__proto__" ->
  lookup (own (entry_of cs r)) y = Some (Value (coerced (field r y))).
Proof.
  intros Hx Hy N. rewrite (lookup_entry_of _ _ _ N).
  destruct (String.eqb_spec (xKey cs) y) as [<- |]; [contradiction |].
  apply includes_In in Hy. rewrite Hy. reflexivity.
Qed.

(** X17. Whatever a sanitized record holds under a value key is a finite
    number or null, never NaN, an infinity, a string or [undefined]; and it
    holds something under every value key other than [__proto__]. *)
Theorem sanitized_values_finite_or_null
  (d : data) (cs : structure) (e : entry) (y : string) :
  chartStructure d = Some cs ->
  In e (sanitized d) ->
  In y (yKeys cs) ->
  (y <> "__proto__" -> exists c, lookup (own e) y = Some c)
  /\ forall c, lookup (own e) y = Some c ->
       c = Value Null \/ exists n, c = Value (Num n) /\ is_finite n = true.
Proof.
  intros H He Hy. destruct (in_sanitized d cs e H He) as [Hx [o ->]]. split.
  - intros N. rewrite (lookup_entry_of_value cs (RObj o) y Hx Hy N). eauto.
  - intros c. unfold entry_of.
    rewrite lookup_assign_other by (intros E; rewrite E in Hx; contradiction).
    apply (forEach_finite_or_null (RObj o) (yKeys cs) fresh).
    intros k c0 L. discriminate L.
Qed.

Lemma sanitized_values_finite_or_null_witness :
  (exists c,
     lookup [("value", Value Null); ("name", Value (Str "B"))] "value"
     = Some c)
  /\ forall c,
       lookup [("value", Value Null); ("name", Value (Str "B"))] "value"
       = Some c ->
       c = Value Null \/ exists n, c = Value (Num n) /\ is_finite n = true.
Proof.
  destruct (sanitized_values_finite_or_null name_value_rows
              {| xKey := "name"; yKeys := ["value"] |}
              {| own := [("value", Value Null); ("name", Value (Str "B"))];
                 proto := Ordinary |} "value") as [A B].
  - reflexivity.
  - right. left. reflexivity.
  - left. reflexivity.
  - split; [apply A; discriminate | exact B].
Defined.

(** X18. How a row's value is charted, for each value key other than
    [__proto__]: a finite number as itself; [null], the empty string and
    [false] as 0 and [true] as 1; a missing field, NaN and an infinity as
    null. *)
Theorem value_coercions (d : data) (cs : structure) (rows : list row) :
  chartStructure d = Some cs ->
  d = DArr rows ->
  Forall2
    (fun o e =>
       forall y, In y (yKeys cs) -> y <> "__proto__" ->
         (forall n, get o y = Num n -> is_finite n = true ->
            lookup (own e) y = Some (Value (Num n)))
         /\ (forall n, get o y = Num n -> is_finite n = false ->
             lookup (own e) y = Some (Value Null))
         /\ (get o y = Null ->
             lookup (own e) y = Some (Value (Num (S754_zero false))))
         /\ (get o y = Str "" ->
             lookup (own e) y = Some (Value (Num (S754_zero false))))
         /\ (get o y = Boolean false ->
             lookup (own e) y = Some (Value (Num (S754_zero false))))
         /\ (get o y = Boolean true ->
             lookup (own e) y = Some (Value (Num (of_Z 1))))
         /\ (lookup o y = None -> lookup (own e) y = Some (Value Null)))
    (objects rows) (sanitized d).
Proof.
  intros H ->. rewrite (sanitized_rows rows cs H).
  assert (Hx : ~ In (xKey cs) (yKeys cs)).
  { apply chartStructure_Some in H. destruct H as [H _].
    exact (shape_keys_apart _ _ H). }
  apply Forall2_map_right. intros o _ y Hy N.
  rewrite (lookup_entry_of_value cs (RObj o) y Hx Hy N). cbn [field].
  repeat split.
  - intros n E F. rewrite E. unfold coerced. cbn.
    destruct n; try discriminate F; reflexivity.
  - intros n E F. rewrite E. unfold coerced. cbn.
    destruct n; try discriminate F; reflexivity.
  - intros E. rewrite E. reflexivity.
  - intros E. rewrite E. reflexivity.
  - intros E. rewrite E. reflexivity.
  - intros E. rewrite E. reflexivity.
  - intros E. unfold get. rewrite E. reflexivity.
Qed.

Lemma value_coercions_witness :
  Forall2
    (fun o e => lookup o "value" = None ->
                lookup (own e) "value" = Some (Value Null))
    [[("name", Str "A"); ("value", Num (of_Z 5))]; [("name", Str "B")]]
    (sanitized
       (DArr [RObj [("name", Str "A"); ("value", Num (of_Z 5))];
              RObj [("name", Str "B")]])).
Proof.
  pose proof
    (value_coercions
       (DArr [RObj [("name", Str "A"); ("value", Num (of_Z 5))];
              RObj [("name", Str "B")]])
       {| xKey := "name"; yKeys := ["value"] |} _ eq_refl eq_refl) as F.
  cbn [objects] in F.
  refine (Forall2_impl _ _ F). intros o e A.
  apply (A "value"); [now left | discriminate].
Defined.

(** X19. The record of the sample row comes first in the projection and
    holds the sample row's own values under the category key and under
    every value key, as far as the key is not [__proto__]; none of these
    value entries is null. *)
Theorem sample_record_unchanged (d : data) (cs : structure) :
  chartStructure d = Some cs ->
  exists rows sample rest e es,
    d = DArr rows
    /\ objects rows = sample :: rest
    /\ sanitized d = e :: es
    /\ (xKey cs <> "__proto__" ->
        lookup (own e) (xKey cs) = Some (Value (get sample (xKey cs))))
    /\ forall y, In y (yKeys cs) -> y <> "__proto__" ->
         lookup (own e) y = Some (Value (get sample y))
         /\ get sample y <> Null.
Proof.
  intros H.
  destruct (chartStructure_sample d cs H)
    as (rows & sample & rest & -> & O & K & V & _ & _).
  assert (Hx : ~ In (xKey cs) (yKeys cs)).
  { apply chartStructure_Some in H. destruct H as [H _].
    exact (shape_keys_apart _ _ H). }
  exists rows, sample, rest, (entry_of cs (RObj sample)),
    (map (fun o => entry_of cs (RObj o)) rest).
  rewrite (sanitized_rows rows cs H), O.
  split; [reflexivity |]. split; [reflexivity |]. split; [reflexivity |].
  split.
  - intros N. rewrite (lookup_entry_of _ _ _ N), String.eqb_refl.
    cbn [read_row]. unfold read, get. apply find_some in K.
    destruct K as [Kin _]. apply In_keys_lookup in Kin.
    destruct (lookup sample (xKey cs)); [reflexivity | now elim Kin].
  - intros y Hy N.
    rewrite (lookup_entry_of_value cs (RObj sample) y Hx Hy N). cbn [field].
    assert (F : is_finite_number (get sample y) = true).
    { rewrite <- V in Hy. apply filter_In in Hy. destruct Hy as [_ B].
      apply andb_prop in B. tauto. }
    rewrite (coerced_finite _ F). split; [reflexivity |].
    intros E. rewrite E in F. discriminate F.
Qed.

Lemma sample_record_unchanged_witness :
  exists e es,
    sanitized name_value_rows = e :: es
    /\ lookup (own e) "value" = Some (Value (Num (of_Z 5))).
Proof.
  destruct (sample_record_unchanged name_value_rows
              {| xKey := "name"; yKeys := ["value"] |} eq_refl)
    as (rows & sample & rest & e & es & D & O & S & _ & V).
  exists e, es. split; [exact S |].
  injection D as <-. injection O as <- _.
  apply (V "value"); [now left | discriminate].
Defined.

(** X22. For a shape none of whose keys is [__proto__], the projection
    maps every row that is a non-null object, in order, to an ordinary
    record that holds what the row yields for the category key (its value,
    else the member objects inherit under that name, else [undefined]) and,
    for each value key, the numeric coercion of the row's value, or null
    when that is NaN or not finite; the record has no other key, and rows
    that are not objects are dropped. *)
Theorem sanitized_projection_ordinary_keys (d : data) (cs : structure) :
  chartStructure d = Some cs ->
  xKey cs <> "__proto__" ->
  ~ In "__proto__" (yKeys cs) ->
  exists rows,
    d = DArr rows
    /\ Forall2 (fun o e => sanitized_from cs o e /\ proto e = Ordinary)
               (objects rows) (sanitized d).
Proof.
  intros H Nx Ny.
  destruct d as [p | o | rows]; try discriminate H.
  exists rows. split; [reflexivity |].
  rewrite (sanitized_rows rows cs H). apply Forall2_map_right.
  intros o _. apply entry_of_sanitized; [| exact Nx | exact Ny].
  apply chartStructure_Some in H. destruct H as [H _].
  exact (shape_keys_apart _ _ H).
Qed.

Lemma sanitized_projection_ordinary_keys_witness :
  exists rows,
    name_value_rows = DArr rows
    /\ Forall2 (fun o e =>
                  sanitized_from {| xKey := "name"; yKeys := ["value"] |} o e
                  /\ proto e = Ordinary)
               (objects rows) (sanitized name_value_rows).
Proof.
  apply (sanitized_projection_ordinary_keys name_value_rows
           {| xKey := "name"; yKeys := ["value"] |}).
  - reflexivity.
  - discriminate.
  - intros [E | []]. discriminate E.
Defined.

(* ===================================================================== *)
(** ** What [App] shows: proofs *)
(* ===================================================================== *)




